(** * Demand = Supply: extraction, stitching, alignment and classification

    A shallow embedding of [tests/demand-supply.spec.ts] (and of the
    documented first extraction pass of the architecture notes), with the
    properties the specification states about them.

    Modelling conventions.
    - A JavaScript [string] is a [string] of bytes (the page text in UTF-8);
      [trim] and [parseInt] skip the white space of the language in its
      UTF-8 form.  [toUpperCase] maps every character whose upper case
      holds an ASCII letter; the other characters are left as they are,
      which the program, looking only for the month codes in an upper-cased
      text, cannot tell from their upper case.
    - A JavaScript [number] holding an integer is a [Z]; [NaN] is [None].
      The two agree for magnitudes up to 2^53.
    - An array is a [list]; [a[i]] is [a !! i], where [None] is [undefined].
    - A thrown [Error] is the left summand of a [sum]. *)

From Stdlib Require Import ZArith Lia Ascii String DecimalString.
From stdpp Require Import base list strings numbers sorting.

Local Open Scope Z_scope.

(** ** The JavaScript built-ins the test relies on *)

Module JS.

(** Relative index of [Array.prototype.slice]: negative arguments count
    from the end, and the result is clamped to [0 .. len]. *)
Definition relIndex (len : nat) (i : Z) : nat :=
  if i <? 0 then Z.to_nat (Z.max (Z.of_nat len + i) 0)
  else Nat.min (Z.to_nat i) len.

(** [l.slice(start)] is [slice l start None];
    [l.slice(start, e)] is [slice l start (Some e)]. *)
Definition slice {A} (l : list A) (start : Z) (end_ : option Z) : list A :=
  let len := length l in
  let k := relIndex len start in
  let final := match end_ with
               | None => len
               | Some e => relIndex len e
               end in
  take (final - k) (drop k l).

(** [l.every((x, idx) => p x idx)] *)
Fixpoint everyFrom {A} (p : A → nat → bool) (idx : nat) (l : list A) : bool :=
  match l with
  | [] => true
  | x :: l' => if p x idx then everyFrom p (S idx) l' else false
  end.

Definition every {A} (p : A → nat → bool) (l : list A) : bool :=
  everyFrom p 0 l.

(** [s === a[i]] for a string [s]: [undefined] equals no string. *)
Definition strictEq (s : string) (o : option string) : bool :=
  match o with
  | Some t => String.eqb s t
  | None => false
  end.

(** [l.indexOf(x)]: the first index holding [x], or [-1]. *)
Fixpoint indexOfFrom (x : string) (k : nat) (l : list string) : Z :=
  match l with
  | [] => -1
  | y :: l' => if String.eqb y x then Z.of_nat k else indexOfFrom x (S k) l'
  end.

Definition indexOf (l : list string) (x : string) : Z := indexOfFrom x 0 l.

(** [l.join(sep)] *)
Fixpoint join (sep : string) (l : list string) : string :=
  match l with
  | [] => ""
  | [x] => x
  | x :: l' => x +:+ sep +:+ join sep l'
  end.

(** Decimal rendering of an index inside a template literal. *)
Definition natToString (n : nat) : string :=
  NilEmpty.string_of_uint (Nat.to_uint n).

(** *** Strings *)

(** [s] without the prefix [p], when it starts with it. *)
Fixpoint stripPrefix (p s : string) : option string :=
  match p, s with
  | EmptyString, _ => Some s
  | String a p', String b s' => if Ascii.eqb a b then stripPrefix p' s' else None
  | String _ _, EmptyString => None
  end.

(** The string of the given bytes. *)
Definition bytes (codes : list nat) : string :=
  fold_right (λ code rest, String (ascii_of_nat code) rest) EmptyString codes.

(** The characters [trim] and [parseInt] skip, the WhiteSpace and
    LineTerminator of the language, each as its UTF-8 bytes: TAB, LF, VT,
    FF, CR, SP, U+00A0, U+1680, U+2000 to U+200A, U+2028, U+2029, U+202F,
    U+205F, U+3000 and U+FEFF. *)
Definition whiteSpace : list string :=
  bytes <$> [[9%nat]; [10%nat]; [11%nat]; [12%nat]; [13%nat]; [32%nat];
             [194; 160]%nat; [225; 154; 128]%nat;
             [226; 128; 128]%nat; [226; 128; 129]%nat; [226; 128; 130]%nat;
             [226; 128; 131]%nat; [226; 128; 132]%nat; [226; 128; 133]%nat;
             [226; 128; 134]%nat; [226; 128; 135]%nat; [226; 128; 136]%nat;
             [226; 128; 137]%nat; [226; 128; 138]%nat;
             [226; 128; 168]%nat; [226; 128; 169]%nat; [226; 128; 175]%nat;
             [226; 129; 159]%nat; [227; 128; 128]%nat; [239; 187; 191]%nat].

(** [s] past the first of the prefixes [ps] it starts with. *)
Fixpoint stripAny (ps : list string) (s : string) : option string :=
  match ps with
  | [] => None
  | p :: ps' =>
      match stripPrefix p s with
      | Some rest => Some rest
      | None => stripAny ps' s
      end
  end.

(** [s] past the white space character at its head, when it has one. *)
Definition skipWhiteSpace (s : string) : option string := stripAny whiteSpace s.

(** Skips white space characters at the head, at most [fuel] of them. *)
Fixpoint trimStartUpTo (fuel : nat) (s : string) : string :=
  match fuel with
  | O => s
  | S fuel' =>
      match skipWhiteSpace s with
      | Some rest => trimStartUpTo fuel' rest
      | None => s
      end
  end.

(** No text holds more white space characters than bytes. *)
Definition trimStart (s : string) : string := trimStartUpTo (String.length s) s.

(** Drops the white space at the end: what is left from a position on goes
    when it is white space and nothing else. *)
Fixpoint trimEnd (s : string) : string :=
  match s with
  | EmptyString => EmptyString
  | String c s' =>
      match trimStart s with
      | EmptyString => EmptyString
      | String _ _ => String c (trimEnd s')
      end
  end.

Definition trim (s : string) : string := trimEnd (trimStart s).

Definition upperChar (c : ascii) : ascii :=
  let n := nat_of_ascii c in
  if ((97 <=? n)%nat && (n <=? 122)%nat) then ascii_of_nat (n - 32) else c.

(** The characters past the ASCII range whose upper case holds an ASCII
    letter, each with its upper case, as UTF-8 bytes: U+00DF, U+0131,
    U+0149, U+017F, U+01F0, U+1E96 to U+1E9A and U+FB00 to U+FB06. *)
Definition upperCaseSpecial : list (string * string) :=
  [(bytes [195; 159]%nat, "SS");
   (bytes [196; 177]%nat, "I");
   (bytes [197; 137]%nat, bytes [202; 188; 78]%nat);
   (bytes [197; 191]%nat, "S");
   (bytes [199; 176]%nat, bytes [74; 204; 140]%nat);
   (bytes [225; 186; 150]%nat, bytes [72; 204; 177]%nat);
   (bytes [225; 186; 151]%nat, bytes [84; 204; 136]%nat);
   (bytes [225; 186; 152]%nat, bytes [87; 204; 138]%nat);
   (bytes [225; 186; 153]%nat, bytes [89; 204; 138]%nat);
   (bytes [225; 186; 154]%nat, bytes [65; 202; 190]%nat);
   (bytes [239; 172; 128]%nat, "FF");
   (bytes [239; 172; 129]%nat, "FI");
   (bytes [239; 172; 130]%nat, "FL");
   (bytes [239; 172; 131]%nat, "FFI");
   (bytes [239; 172; 132]%nat, "FFL");
   (bytes [239; 172; 133]%nat, "ST");
   (bytes [239; 172; 134]%nat, "ST")].

(** The upper case of the character of [table] that [s] starts with, and
    the number of bytes the character takes. *)
Fixpoint upperSpecial (table : list (string * string)) (s : string)
  : option (string * nat) :=
  match table with
  | [] => None
  | (lower, upper) :: table' =>
      match stripPrefix lower s with
      | Some _ => Some (upper, String.length lower)
      | None => upperSpecial table' s
      end
  end.

(** Once the upper case of a character of several bytes is written, the
    bytes left of it are skipped. *)
Fixpoint toUpperCaseSkipping (skip : nat) (s : string) : string :=
  match s with
  | EmptyString => EmptyString
  | String c s' =>
      match skip with
      | S skip' => toUpperCaseSkipping skip' s'
      | O =>
          match upperSpecial upperCaseSpecial s with
          | Some (upper, size) =>
              upper +:+ toUpperCaseSkipping (size - 1)%nat s'
          | None => String (upperChar c) (toUpperCaseSkipping 0 s')
          end
      end
  end.

Definition toUpperCase (s : string) : string := toUpperCaseSkipping 0 s.

(** [s.includes(sub)] *)
Fixpoint includes (s sub : string) : bool :=
  if String.prefix sub s then true
  else match s with
       | EmptyString => false
       | String _ s' => includes s' sub
       end.

(** [s.replace(/,/g, '')] *)
Fixpoint removeCommas (s : string) : string :=
  match s with
  | EmptyString => EmptyString
  | String c s' =>
      if Ascii.eqb c ","%char then removeCommas s' else String c (removeCommas s')
  end.

(** *** [parseInt(s)] with no radix argument *)

(** Value of a digit in radix 10 or 16. *)
Definition digitValue (radix : Z) (c : ascii) : option Z :=
  let n := Z.of_nat (nat_of_ascii c) in
  let v := if (48 <=? n) && (n <=? 57) then Some (n - 48)
           else if (97 <=? n) && (n <=? 122) then Some (n - 87)
           else if (65 <=? n) && (n <=? 90) then Some (n - 55)
           else None in
  match v with
  | Some d => if d <? radix then Some d else None
  | None => None
  end.

(** Reads the longest prefix of digits; [acc] is [None] until a digit
    has been read. *)
Fixpoint readDigits (radix : Z) (acc : option Z) (s : string) : option Z :=
  match s with
  | EmptyString => acc
  | String c s' =>
      match digitValue radix c with
      | Some d => readDigits radix (Some (radix * default 0 acc + d)) s'
      | None => acc
      end
  end.

(** Leading white space is skipped, a sign is read, a [0x] or [0X]
    prefix selects radix 16, and the digits that follow are read up to the
    first character that is not one; with no digit the result is [NaN]. *)
Definition parseInt (input : string) : option Z :=
  let s := trimStart input in
  let '(sign, s) :=
    match stripPrefix "-" s, stripPrefix "+" s with
    | Some s', _ => (-1, s')
    | None, Some s' => (1, s')
    | None, None => (1, s)
    end in
  let '(radix, s) :=
    match stripPrefix "0x" s, stripPrefix "0X" s with
    | Some s', _ => (16, s')
    | None, Some s' => (16, s')
    | None, None => (10, s)
    end in
  match readDigits radix None s with
  | Some n => Some (sign * n)
  | None => None
  end.

End JS.

(** ** The abstract page: tables of rows of cells *)

Inductive CellTag := TH | TD.

(** A cell of a row: its tag, its [textContent], and the [value] of its
    first [input] descendant when it has one. *)
Record Cell := {
  tag : CellTag;
  textContent : string;
  input : option string
}.

(** A [tr]: its own [textContent] and its [th]/[td] cells in document order. *)
Record Tr := {
  rowText : string;
  cells : list Cell
}.

Definition Table := list Tr.

Definition isTD (c : Cell) : bool :=
  match tag c with TD => true | TH => false end.

(** [row.querySelectorAll('td')] *)
Definition tdCells (row : Tr) : list Cell := filter (λ c, isTD c = true) (cells row).

(** ** Interfaces of the test *)

Module SupplyData.
Record t := { values : list Z; headers : list string }.
End SupplyData.

Module DemandData.
Record t := { labels : list string; values : list Z }.
End DemandData.

(** One element of [grossSalesRows]. *)
Module GrossSalesRow.
Record t := { year : Z; values : list Z; headers : list string }.
End GrossSalesRow.

Module Mismatch.
Record t := { index : nat; month : string; supply : Z; demand : Z }.
End Mismatch.

Module AlignmentResult.
Record t := { mismatches : list Mismatch.t; comparedCount : nat }.
End AlignmentResult.

Inductive TestOutcome :=
| Passed
| Failed (message : string).

(** ** Month headers *)

Definition monthNames : list string :=
  ["JAN"; "FEB"; "MAR"; "APR"; "MAY"; "JUN";
   "JUL"; "AUG"; "SEP"; "OCT"; "NOV"; "DEC"].

Definition isMonthName (s : string) : bool := existsb (String.eqb s) monthNames.

(** [upperText.match(/^(JAN|FEB|...|DEC)/)]: the captured month. *)
Definition monthMatch (upperText : string) : option string :=
  let head := substring 0 3 upperText in
  if isMonthName head then Some head else None.

(** The first row holding at least six month cells gives the headers. *)
Fixpoint findHeaderLabels (potentialHeaders : Tr → list string) (rows : list Tr)
  : list string :=
  match rows with
  | [] => []
  | row :: rest =>
      let found := potentialHeaders row in
      if (6 <=? length found)%nat then found
      else findHeaderLabels potentialHeaders rest
  end.

(** The text a cell contributes: the value of its input when it has a
    non-empty one, its trimmed text otherwise. *)
Definition valueText (cell : Cell) : string :=
  match input cell with
  | Some (String c v) => String c v
  | _ => JS.trim (textContent cell)
  end.

(** ** extractSupplyValues *)

Definition supplyPotentialHeaders (row : Tr) : list string :=
  omap (λ cell, monthMatch (JS.toUpperCase (JS.trim (textContent cell)))) (cells row).

(** The number read from a supply cell: commas removed, trimmed, parsed. *)
Definition parseSupplyCell (text : string) : option Z :=
  JS.parseInt (JS.trim (JS.removeCommas text)).

Fixpoint supplyRowValues (cs : list Cell) : list Z :=
  match cs with
  | [] => []
  | cell :: rest =>
      if JS.includes (JS.trim (textContent cell)) "Demand forecast"
      then supplyRowValues rest
      else match parseSupplyCell (valueText cell) with
           | Some num => num :: supplyRowValues rest
           | None => supplyRowValues rest
           end
  end.

(** What the row search of one table returns, if it returns. *)
Fixpoint supplyFromRows (headerLabels : list string) (rows : list Tr)
  : option SupplyData.t :=
  match rows with
  | [] => None
  | row :: rest =>
      if JS.includes (rowText row) "Demand forecast" then
        let values := supplyRowValues (tdCells row) in
        Some {| SupplyData.values := values;
                SupplyData.headers :=
                  JS.slice headerLabels 0 (Some (Z.of_nat (length values))) |}
      else supplyFromRows headerLabels rest
  end.

Fixpoint extractSupplyValues (tables : list Table) : SupplyData.t :=
  match tables with
  | [] => {| SupplyData.values := []; SupplyData.headers := [] |}
  | table :: rest =>
      let headerLabels := findHeaderLabels supplyPotentialHeaders table in
      match supplyFromRows headerLabels table with
      | Some result => result
      | None => extractSupplyValues rest
      end
  end.

(** ** isForecastLocked *)

Definition isForecastLocked (predictionsFound : bool)
    (lockIconCount checkIconCount : nat) : bool :=
  if predictionsFound
  then (0 <? lockIconCount)%nat && (0 <? checkIconCount)%nat
  else false.

(** ** extractDemandData: the rows *)

Definition demandPotentialHeaders (row : Tr) : list string :=
  filter (λ t, isMonthName t = true)
         ((λ cell, JS.toUpperCase (JS.trim (textContent cell))) <$> cells row).

Definition isDigit (c : ascii) : bool :=
  let n := nat_of_ascii c in (48 <=? n)%nat && (n <=? 57)%nat.

Fixpoint skipToBracket (s : string) : string :=
  match s with
  | EmptyString => EmptyString
  | String c s' => if Ascii.eqb c "["%char then s else skipToBracket s'
  end.

(** [\d{4}] at the head of [s]: the four digits and what follows. *)
Definition fourDigits (s : string) : option (string * string) :=
  match s with
  | String a (String b (String c (String d rest))) =>
      if isDigit a && isDigit b && isDigit c && isDigit d
      then Some (String a (String b (String c (String d EmptyString))), rest)
      else None
  | _ => None
  end.

(** A hyphen or an en dash (three bytes in UTF-8) at the head of [s]. *)
Definition dash (s : string) : option string :=
  match JS.stripPrefix "-" s with
  | Some rest => Some rest
  | None => JS.stripPrefix "–" s
  end.

(** [/Gross sales[^[]*\[(\d{4})[-–](\d{4})\]/] anchored at the head of [s]:
    the first capture. *)
Definition yearMatchHere (s : string) : option string :=
  rest ← JS.stripPrefix "Gross sales" s;
  rest ← JS.stripPrefix "[" (skipToBracket rest);
  '(yearStart, rest) ← fourDigits rest;
  rest ← dash rest;
  '(_, rest) ← fourDigits rest;
  _ ← JS.stripPrefix "]" rest;
  Some yearStart.

(** [rowText.match(...)]: the leftmost match. *)
Fixpoint yearMatch (s : string) : option string :=
  match yearMatchHere s with
  | Some y => Some y
  | None => match s with
            | EmptyString => None
            | String _ s' => yearMatch s'
            end
  end.

(** The test a parsed demand cell passes to be pushed:
    [!isNaN(num) && num >= 0]. *)
Definition keepDemandValue (num : Z) : bool := 0 <=? num.

Definition parseDemandCell (text : string) : option Z :=
  JS.parseInt (JS.removeCommas text).

Fixpoint demandRowValues (cs : list Cell) : list Z :=
  match cs with
  | [] => []
  | cell :: rest =>
      if JS.includes (JS.trim (textContent cell)) "Gross sales"
      then demandRowValues rest
      else match parseDemandCell (valueText cell) with
           | Some num =>
               if keepDemandValue num then num :: demandRowValues rest
               else demandRowValues rest
           | None => demandRowValues rest
           end
  end.

(** The rows one table contributes to [results]. *)
Fixpoint grossSalesFromRows (headerLabels : list string) (rows : list Tr)
  : list GrossSalesRow.t :=
  match rows with
  | [] => []
  | row :: rest =>
      let text := rowText row in
      if negb (JS.includes text "Gross sales") then grossSalesFromRows headerLabels rest
      else if JS.includes text "(LY)" || JS.includes text "(LLY)"
      then grossSalesFromRows headerLabels rest
      else match yearMatch text with
           | None => grossSalesFromRows headerLabels rest
           | Some y =>
               let yearStart := default 0 (JS.parseInt y) in
               let values := demandRowValues (tdCells row) in
               if (0 <? length values)%nat && (0 <? length headerLabels)%nat
               then {| GrossSalesRow.year := yearStart;
                       GrossSalesRow.values := values;
                       GrossSalesRow.headers :=
                         JS.slice headerLabels 0 (Some (Z.of_nat (length values))) |}
                    :: grossSalesFromRows headerLabels rest
               else grossSalesFromRows headerLabels rest
           end
  end.

Definition grossSalesRows (tables : list Table) : list GrossSalesRow.t :=
  tables ≫= (λ table,
    grossSalesFromRows (findHeaderLabels demandPotentialHeaders table) table).

(** ** extractDemandData: sorting and stitching *)

(** [grossSalesRows.sort((a, b) => a.year - b.year)]: ascending and stable. *)
Fixpoint insertByYear (row : GrossSalesRow.t) (sorted : list GrossSalesRow.t)
  : list GrossSalesRow.t :=
  match sorted with
  | [] => [row]
  | x :: rest =>
      if GrossSalesRow.year row <=? GrossSalesRow.year x then row :: sorted
      else x :: insertByYear row rest
  end.

Definition sortByYear (rows : list GrossSalesRow.t) : list GrossSalesRow.t :=
  foldr insertByYear [] rows.

(** The body of the overlap loop at one [k]: do the last [k] labels of the
    output so far equal the first [k] labels of the row? *)
Definition matchesAt (allLabels rowLabels : list string) (k : nat) : bool :=
  let prevEnd := JS.slice allLabels (- Z.of_nat k) None in
  let currStart := JS.slice rowLabels 0 (Some (Z.of_nat k)) in
  JS.every (λ month idx, JS.strictEq month (currStart !! idx)) prevEnd.

(** [Math.min(3, rowLabels.length, allLabels.length)] *)
Definition overlapBound (allLabels rowLabels : list string) : nat :=
  Nat.min 3 (Nat.min (length rowLabels) (length allLabels)).

(** The overlap loop: [k] runs from 1 to the bound and every match
    overwrites [overlap]. *)
Definition computeOverlap (allLabels rowLabels : list string) : nat :=
  fold_left (λ overlap k, if matchesAt allLabels rowLabels k then k else overlap)
            (seq 1 (overlapBound allLabels rowLabels)) 0%nat.

(** One turn of the stitching loop for [i > 0]. *)
Definition stitchStep (all : DemandData.t) (row : GrossSalesRow.t) : DemandData.t :=
  let allLabels := DemandData.labels all in
  let allValues := DemandData.values all in
  let rowLabels := GrossSalesRow.headers row in
  let overlap := computeOverlap allLabels rowLabels in
  {| DemandData.labels := allLabels ++ JS.slice rowLabels (Z.of_nat overlap) None;
     DemandData.values :=
       allValues ++ JS.slice (GrossSalesRow.values row) (Z.of_nat overlap) None |}.

(** The first turn, [i === 0]: the output so far is the first row. *)
Definition seed (first : GrossSalesRow.t) : DemandData.t :=
  {| DemandData.labels := GrossSalesRow.headers first;
     DemandData.values := GrossSalesRow.values first |}.

(** The stitching loop; with no row the output stays empty. *)
Definition stitch (rows : list GrossSalesRow.t) : DemandData.t :=
  match rows with
  | [] => {| DemandData.labels := []; DemandData.values := [] |}
  | first :: rest => fold_left stitchStep rest (seed first)
  end.

Definition extractDemandData (tables : list Table) : DemandData.t :=
  stitch (sortByYear (grossSalesRows tables)).

(** The overlap found at each boundary, in order. *)
Fixpoint boundaryOverlaps (all : DemandData.t) (rest : list GrossSalesRow.t)
  : list nat :=
  match rest with
  | [] => []
  | row :: rest' =>
      computeOverlap (DemandData.labels all) (GrossSalesRow.headers row)
      :: boundaryOverlaps (stitchStep all row) rest'
  end.

Definition overlapsRemoved (rows : list GrossSalesRow.t) : list nat :=
  match rows with
  | [] => []
  | first :: rest => boundaryOverlaps (seed first) rest
  end.

(** ** The documented first pass (architecture notes, "Pass 1") *)

(** The test of the notes on a parsed cell: below ten million, and not a
    year number unless it is small. *)
Definition keepDocumentedValue (num : Z) : bool :=
  (0 <=? num) && (num <? 10000000)
  && ((num <? 1900) || (2100 <? num) || (num <? 1000)).

Fixpoint documentedRowValues (cs : list Cell) : list Z :=
  match cs with
  | [] => []
  | cell :: rest =>
      if JS.includes (JS.trim (textContent cell)) "Gross sales"
      then documentedRowValues rest
      else match parseDemandCell (valueText cell) with
           | Some num =>
               if keepDocumentedValue num then num :: documentedRowValues rest
               else documentedRowValues rest
           | None => documentedRowValues rest
           end
  end.

(** ** alignAndCompare *)

(** [labelsSliced[i] || `Month ${i}`] *)
Definition monthAt (labelsSliced : list string) (i : nat) : string :=
  match labelsSliced !! i with
  | Some (String c s) => String c s
  | _ => "Month " +:+ JS.natToString i
  end.

(** The body of the comparison loop at index [i], below both lengths. *)
Definition compareAt (supplyValues demandSliced : list Z)
    (labelsSliced : list string) (mismatches : list Mismatch.t) (i : nat)
  : list Mismatch.t :=
  match supplyValues !! i, demandSliced !! i with
  | Some s, Some d =>
      if s =? d then mismatches
      else mismatches ++ [ {| Mismatch.index := i;
                              Mismatch.month := monthAt labelsSliced i;
                              Mismatch.supply := s;
                              Mismatch.demand := d |} ]
  | _, _ => mismatches
  end.

Definition pivotNotFound (currentMonth : string) (demandLabels : list string)
  : string :=
  "Current month " +:+ currentMonth +:+ " not found in demand labels: ["
  +:+ JS.join ", " demandLabels +:+ "]".

(** [currentMonth] is what [getCurrentMonth()] returns when the test runs. *)
Definition alignAndCompare (currentMonth : string) (supplyValues : list Z)
    (demandLabels : list string) (demandValues : list Z)
  : string + AlignmentResult.t :=
  let startIdx := JS.indexOf demandLabels currentMonth in
  if startIdx =? -1 then inl (pivotNotFound currentMonth demandLabels)
  else
    let demandSliced := JS.slice demandValues startIdx None in
    let labelsSliced := JS.slice demandLabels startIdx None in
    let compareLength := Nat.min (length supplyValues) (length demandSliced) in
    let mismatches :=
      fold_left (compareAt supplyValues demandSliced labelsSliced)
                (seq 0 compareLength) [] in
    inr {| AlignmentResult.mismatches := mismatches;
           AlignmentResult.comparedCount := compareLength |}.

(** ** The test body after the two extractions *)

Definition expect (holds : bool) (message : string) (continue : TestOutcome)
  : TestOutcome :=
  if holds then continue else Failed message.

(** The final classification on the lock status. *)
Definition lockClassification (locked : bool) (mismatches : list Mismatch.t)
  : TestOutcome :=
  if locked
  then expect (length mismatches =? 0)%nat
              "Locked forecast: Supply and Demand must match" Passed
  else Passed.

(** [getCurrentMonth()] is called twice, and each call reads the clock:
    [guardMonth] is what the call of the guard returns, [alignMonth] what
    the call inside [alignAndCompare] returns. *)
Definition testBody (guardMonth alignMonth : string) (locked : bool)
    (supplyData : SupplyData.t) (demandData : DemandData.t) : TestOutcome :=
  let supplyValues := SupplyData.values supplyData in
  let labels := DemandData.labels demandData in
  let values := DemandData.values demandData in
  expect (0 <? length supplyValues)%nat "Supply extraction failed" (
  expect (10 <? length values)%nat "Demand extraction failed" (
  expect (length labels =? length values)%nat
         "Labels count must match values count" (
  expect (0 <=? JS.indexOf labels guardMonth)
         ("Current month " +:+ guardMonth +:+ " not found") (
  match alignAndCompare alignMonth supplyValues labels values with
  | inl message => Failed message
  | inr result =>
      expect (12 <=? AlignmentResult.comparedCount result)%nat
             "Must compare at least 12 months"
             (lockClassification locked (AlignmentResult.mismatches result))
  end)))).

(** ** ensureShowYear2Checked: the wait for the second year row *)

(** [/\[\d{4}[-–]\d{4}\]/] anchored at the head of [s]. *)
Definition bracketYearsHere (s : string) : bool :=
  match (rest ← JS.stripPrefix "[" s;
         '(_, rest) ← fourDigits rest;
         rest ← dash rest;
         '(_, rest) ← fourDigits rest;
         JS.stripPrefix "]" rest) with
  | Some _ => true
  | None => false
  end.

(** [/\[\d{4}[-–]\d{4}\]/.test(text)]: a match at some position. *)
Fixpoint bracketYearsTest (s : string) : bool :=
  if bracketYearsHere s then true
  else match s with
       | EmptyString => false
       | String _ s' => bracketYearsTest s'
       end.

(** The rows the wait counts. *)
Definition isForecastYearRow (row : Tr) : bool :=
  let text := rowText row in
  JS.includes text "Gross sales" && bracketYearsTest text
  && negb (JS.includes text "(LY)") && negb (JS.includes text "(LLY)").

(** [grossSalesCount] once the loop over the rows is done. *)
Definition grossSalesCount (rows : list Tr) : nat :=
  length (filter (λ row, isForecastYearRow row = true) rows).

(** What the function passed to [waitForFunction] returns. *)
Definition secondYearLoaded (rows : list Tr) : bool :=
  (2 <=? grossSalesCount rows)%nat.

(** ** Vocabulary of the statements *)

(** The last [k] labels of the output so far are the first [k] labels of
    the row. *)
Definition labelsOverlap (allLabels rowLabels : list string) (k : nat) : Prop :=
  (k ≤ length allLabels)%nat ∧ (k ≤ length rowLabels)%nat
  ∧ drop (length allLabels - k) allLabels = take k rowLabels.

(** A row as the extraction builds it never has more headers than values. *)
Definition headersFit (row : GrossSalesRow.t) : Prop :=
  (length (GrossSalesRow.headers row) ≤ length (GrossSalesRow.values row))%nat.

Definition headersExact (row : GrossSalesRow.t) : Prop :=
  length (GrossSalesRow.headers row) = length (GrossSalesRow.values row).

Definition yearLe (a b : GrossSalesRow.t) : Prop :=
  GrossSalesRow.year a ≤ GrossSalesRow.year b.

(** Every row comes before the rows of the same or a later year. *)
Definition ascendingByYear (rows : list GrossSalesRow.t) : Prop :=
  StronglySorted yearLe rows.

Definition totalValues (rows : list GrossSalesRow.t) : nat :=
  sum_list ((λ row, length (GrossSalesRow.values row)) <$> rows).

Definition totalHeaders (rows : list GrossSalesRow.t) : nat :=
  sum_list ((λ row, length (GrossSalesRow.headers row)) <$> rows).

(** The record the comparison loop pushes at position [i]. *)
Definition mismatchAt (labelsSliced : list string) (i : nat) (s d : Z)
  : Mismatch.t :=
  {| Mismatch.index := i; Mismatch.month := monthAt labelsSliced i;
     Mismatch.supply := s; Mismatch.demand := d |}.

(** What position [i] contributes to the mismatch list. *)
Definition mismatchOf (supplyValues demandSliced : list Z)
    (labelsSliced : list string) (i : nat) : option Mismatch.t :=
  match supplyValues !! i, demandSliced !! i with
  | Some s, Some d =>
      if s =? d then None else Some (mismatchAt labelsSliced i s d)
  | _, _ => None
  end.

(** The comparison of a supply series with a demand series that starts at
    the same month. *)
Definition comparison (supplyValues demandSliced : list Z)
    (labelsSliced : list string) : AlignmentResult.t :=
  let n := Nat.min (length supplyValues) (length demandSliced) in
  {| AlignmentResult.mismatches :=
       omap (mismatchOf supplyValues demandSliced labelsSliced) (seq 0 n);
     AlignmentResult.comparedCount := n |}.

(** The content of a cell after its sign, if it has one. *)
Definition unsignedPart (s : string) : string :=
  match JS.stripPrefix "-" s, JS.stripPrefix "+" s with
  | Some s', _ => s'
  | None, Some s' => s'
  | None, None => s
  end.

Definition startsWithDigit (s : string) : bool :=
  match s with
  | String c _ => isDigit c
  | EmptyString => false
  end.

Fixpoint allDigits (s : string) : bool :=
  match s with
  | EmptyString => true
  | String c s' => isDigit c && allDigits s'
  end.

(** Numeric content: an optional sign, then digits and nothing else. *)
Definition isNumeral (s : string) : bool :=
  startsWithDigit (unsignedPart s) && allDigits (unsignedPart s).

(** The bytes a white space character can start with. *)
Definition whiteSpaceLead (c : ascii) : bool :=
  existsb (Nat.eqb (nat_of_ascii c))
          [9; 10; 11; 12; 13; 32; 194; 225; 226; 227; 239]%nat.

Definition isHexDigit (c : ascii) : bool :=
  let n := nat_of_ascii c in
  isDigit c || ((97 <=? n)%nat && (n <=? 102)%nat)
  || ((65 <=? n)%nat && (n <=? 70)%nat).

Definition startsWithHexDigit (s : string) : bool :=
  match s with
  | String c _ => isHexDigit c
  | EmptyString => false
  end.

(** Content with a number at its head, the sign apart: a decimal digit,
    or the prefix 0x or 0X and a hexadecimal digit after it. *)
Definition startsWithNumber (s : string) : bool :=
  match JS.stripPrefix "0x" s, JS.stripPrefix "0X" s with
  | Some rest, _ => startsWithHexDigit rest
  | None, Some rest => startsWithHexDigit rest
  | None, None => startsWithDigit s
  end.

(** The integer a numeral writes in base ten. *)
Definition decimalValue (s : string) : Z :=
  fold_left (λ acc c, 10 * acc + (Z.of_nat (nat_of_ascii c) - 48))
            (list_ascii_of_string s) 0.

Definition numeralValue (s : string) : Z :=
  match JS.stripPrefix "-" s with
  | Some s' => - decimalValue s'
  | None => decimalValue (unsignedPart s)
  end.

(** The last character of a text. *)
Fixpoint lastChar (s : string) : option ascii :=
  match s with
  | EmptyString => None
  | String c EmptyString => Some c
  | String _ s' => lastChar s'
  end.

(** What is left of a cell text once the commas are removed and the ends
    trimmed. *)
Definition stripped (text : string) : string := JS.trim (JS.removeCommas text).

(** ** Sample data *)

Definition th (text : string) : Cell :=
  {| tag := TH; textContent := text; input := None |}.

Definition td (text : string) : Cell :=
  {| tag := TD; textContent := text; input := None |}.

(** A header row of six months. *)
Definition sixMonthHeader : Tr :=
  {| rowText := "OCTNOVDECJANFEBMAR";
     cells := [th ""; th "OCT"; th "NOV"; th "DEC"; th "JAN"; th "FEB"; th "MAR"] |}.

(** Data rows of seven numeric cells: six months and a total. *)
Definition supplyRowWithTotal : Tr :=
  {| rowText := "Demand forecast5644722783013023032,020";
     cells := [td "Demand forecast"; td "564"; td "472"; td "278"; td "301";
               td "302"; td "303"; td "2,020"] |}.

Definition demandRowWithTotal : Tr :=
  {| rowText := "Gross sales [2026–2027]5644722783013023032,020";
     cells := [td "Gross sales [2026–2027]"; td "564"; td "472"; td "278";
               td "301"; td "302"; td "303"; td "2,020"] |}.

(** Demand labels over more than a year: DEC and JAN come twice. *)
Definition labelsTwoDecembers : list string :=
  ["OCT"; "NOV"; "DEC"; "JAN"; "FEB"; "MAR"; "APR"; "MAY"; "JUN"; "JUL";
   "AUG"; "SEP"; "OCT"; "NOV"; "DEC"; "JAN"].

Definition valuesTwoDecembers : list Z :=
  [230; 463; 564; 472; 278; 301; 302; 303; 304; 305;
   306; 307; 308; 309; 777; 888].

(** Two year rows that share their boundary month, with the value of the
    shared month differing between them. *)
Definition row2026 : GrossSalesRow.t :=
  {| GrossSalesRow.year := 2026;
     GrossSalesRow.values := [215; 237; 500];
     GrossSalesRow.headers := ["AUG"; "SEP"; "OCT"] |}.

Definition row2027 : GrossSalesRow.t :=
  {| GrossSalesRow.year := 2027;
     GrossSalesRow.values := [999; 389; 307];
     GrossSalesRow.headers := ["OCT"; "NOV"; "DEC"] |}.

(** A row that starts where the previous one stopped. *)
Definition rowNoOverlap : GrossSalesRow.t :=
  {| GrossSalesRow.year := 2027;
     GrossSalesRow.values := [389; 307];
     GrossSalesRow.headers := ["NOV"; "DEC"] |}.

(** A row the wait counts and the extraction skips: the bracket next to
    "Gross sales" holds no year range, a later one does. *)
Definition rowWithNote : Tr :=
  {| rowText := "Gross sales [est] [2026-2027]564";
     cells := [td "Gross sales [est] [2026-2027]"; td "564"] |}.

Local Close Scope Z_scope.
Local Open Scope nat_scope.

(** * Properties *)

(** ** Array slices *)

Section SliceFacts.
Context {A : Type}.
Implicit Types (l : list A) (k : nat).

Lemma slice_from l k : JS.slice l (Z.of_nat k) None = drop k l.
Proof.
  unfold JS.slice, JS.relIndex.
  destruct (Z.ltb_spec (Z.of_nat k) 0) as [H|_]; [lia|].
  rewrite Nat2Z.id.
  destruct (Nat.le_gt_cases k (length l)) as [Hk|Hk].
  - rewrite Nat.min_l by done. apply take_ge. rewrite length_drop. lia.
  - rewrite Nat.min_r by lia. rewrite !drop_ge by lia. by rewrite take_nil.
Qed.

Lemma slice_upto l k : JS.slice l 0 (Some (Z.of_nat k)) = take k l.
Proof.
  unfold JS.slice, JS.relIndex. simpl.
  destruct (Z.ltb_spec (Z.of_nat k) 0) as [H|_]; [lia|].
  rewrite Nat2Z.id, Nat.sub_0_r, drop_0.
  destruct (Nat.le_gt_cases k (length l)) as [Hk|Hk].
  - by rewrite Nat.min_l.
  - rewrite Nat.min_r by lia. by rewrite !take_ge by lia.
Qed.

Lemma slice_last l k :
  1 ≤ k → JS.slice l (- Z.of_nat k) None = drop (length l - k) l.
Proof.
  intros Hk. unfold JS.slice, JS.relIndex.
  destruct (Z.ltb_spec (- Z.of_nat k) 0) as [_|H]; [|lia].
  replace (Z.to_nat (Z.max (Z.of_nat (length l) + - Z.of_nat k) 0))
    with (length l - k) by lia.
  apply take_ge. rewrite length_drop. lia.
Qed.
End SliceFacts.

(** ** The overlap loop *)

Section OverlapFacts.
Implicit Types (allLabels rowLabels : list string) (k : nat).

Lemma strictEq_true s o : JS.strictEq s o = true ↔ o = Some s.
Proof.
  destruct o as [t|]; simpl; [|done].
  rewrite String.eqb_eq. split; congruence.
Qed.

(** [every] with the callback of the loop holds exactly of a prefix. *)
Lemma everyFrom_prefix (c p : list string) n :
  JS.everyFrom (λ month idx, JS.strictEq month (c !! idx)) n p = true
  ↔ p `prefix_of` drop n c.
Proof.
  revert n. induction p as [|x p IH]; intros n; simpl.
  - split; [intros _; apply prefix_nil | done].
  - destruct (JS.strictEq x (c !! n)) eqn:E.
    + apply strictEq_true in E. rewrite IH.
      rewrite (drop_S c x n E). split.
      * apply prefix_cons.
      * apply prefix_cons_inv_2.
    + split; [done|]. intros Hp.
      assert (c !! n = Some x) as Hc.
      { destruct Hp as [t Ht].
        rewrite <- (Nat.add_0_r n), <- lookup_drop, Ht. done. }
      apply strictEq_true in Hc. congruence.
Qed.

Lemma matchesAt_overlap allLabels rowLabels k :
  1 ≤ k ≤ overlapBound allLabels rowLabels →
  matchesAt allLabels rowLabels k = true ↔ labelsOverlap allLabels rowLabels k.
Proof.
  unfold overlapBound, labelsOverlap, matchesAt, JS.every. intros Hk.
  rewrite slice_last, slice_upto, everyFrom_prefix, drop_0 by lia.
  split.
  - intros Hp. split_and!; [lia..|].
    apply prefix_length_eq; [done|].
    rewrite length_take, length_drop. lia.
  - intros (_ & _ & ->). done.
Qed.

(** A loop that overwrites on every hit ends on the last hit. *)
Lemma overwrite_loop (p : nat → bool) n :
  let r := fold_left (λ overlap k, if p k then k else overlap) (seq 1 n) 0 in
  r ≤ n ∧ (r ≠ 0 → p r = true) ∧ ∀ j, r < j ≤ n → p j = false.
Proof.
  induction n as [|n IH]; cbv zeta in *.
  - simpl. split_and!; [done|done|]. intros j ?. lia.
  - destruct IH as (Hle & Hhit & Hlast).
    rewrite seq_S, fold_left_app. simpl.
    destruct (p (S n)) eqn:E.
    + split_and!; [done|done|]. intros j ?. lia.
    + split_and!; [lia|done|]. intros j Hj.
      destruct (decide (j = S n)) as [->|]; [done|]. apply Hlast. lia.
Qed.

Lemma computeOverlap_bound allLabels rowLabels :
  computeOverlap allLabels rowLabels ≤ overlapBound allLabels rowLabels.
Proof. apply (overwrite_loop (matchesAt allLabels rowLabels)). Qed.

Lemma computeOverlap_matches allLabels rowLabels :
  computeOverlap allLabels rowLabels ≠ 0 →
  labelsOverlap allLabels rowLabels (computeOverlap allLabels rowLabels).
Proof.
  intros Hnz. apply matchesAt_overlap.
  - pose proof (computeOverlap_bound allLabels rowLabels). lia.
  - by apply (overwrite_loop (matchesAt allLabels rowLabels)).
Qed.

Lemma computeOverlap_largest allLabels rowLabels j :
  1 ≤ j ≤ 3 → labelsOverlap allLabels rowLabels j →
  j ≤ computeOverlap allLabels rowLabels.
Proof.
  intros Hj Hov.
  assert (1 ≤ j ≤ overlapBound allLabels rowLabels) as Hb.
  { destruct Hov as (? & ? & _). unfold overlapBound. lia. }
  apply matchesAt_overlap in Hov; [|done].
  destruct (Nat.le_gt_cases j (computeOverlap allLabels rowLabels)) as [|Hlt];
    [done|].
  pose proof (overwrite_loop (matchesAt allLabels rowLabels)
                (overlapBound allLabels rowLabels)) as (_ & _ & Hlast).
  rewrite (Hlast j) in Hov; [done|]. split; [exact Hlt | lia].
Qed.

Lemma computeOverlap_none allLabels rowLabels :
  (∀ k, 1 ≤ k ≤ 3 → ¬ labelsOverlap allLabels rowLabels k) →
  computeOverlap allLabels rowLabels = 0.
Proof.
  intros Hno.
  destruct (decide (computeOverlap allLabels rowLabels = 0)) as [|Hnz]; [done|].
  exfalso. apply (Hno (computeOverlap allLabels rowLabels)).
  - pose proof (computeOverlap_bound allLabels rowLabels).
    unfold overlapBound in *. lia.
  - by apply computeOverlap_matches.
Qed.
End OverlapFacts.

(** ** The stitching loop *)

Section StitchFacts.
Implicit Types (all : DemandData.t) (row : GrossSalesRow.t)
               (rows rest : list GrossSalesRow.t).

Lemma stitchStep_labels all row :
  DemandData.labels (stitchStep all row)
  = DemandData.labels all
    ++ drop (computeOverlap (DemandData.labels all) (GrossSalesRow.headers row))
            (GrossSalesRow.headers row).
Proof. unfold stitchStep. simpl. by rewrite slice_from. Qed.

Lemma stitchStep_values all row :
  DemandData.values (stitchStep all row)
  = DemandData.values all
    ++ drop (computeOverlap (DemandData.labels all) (GrossSalesRow.headers row))
            (GrossSalesRow.values row).
Proof. unfold stitchStep. simpl. by rewrite slice_from. Qed.

Lemma overlap_le_headers all row :
  computeOverlap (DemandData.labels all) (GrossSalesRow.headers row)
  ≤ length (GrossSalesRow.headers row).
Proof.
  pose proof (computeOverlap_bound (DemandData.labels all)
                (GrossSalesRow.headers row)).
  unfold overlapBound in *. lia.
Qed.

Lemma totalHeaders_cons row rows :
  totalHeaders (row :: rows) = length (GrossSalesRow.headers row) + totalHeaders rows.
Proof. reflexivity. Qed.

Lemma totalValues_cons row rows :
  totalValues (row :: rows) = length (GrossSalesRow.values row) + totalValues rows.
Proof. reflexivity. Qed.

(** Labels: what comes out is what went in less the overlaps. *)
Lemma fold_stitch_labels rest all :
  length (DemandData.labels (fold_left stitchStep rest all))
  + sum_list (boundaryOverlaps all rest)
  = length (DemandData.labels all) + totalHeaders rest.
Proof.
  revert all. induction rest as [|row rest IH]; intros all.
  - simpl. unfold totalHeaders. simpl. lia.
  - specialize (IH (stitchStep all row)).
    rewrite stitchStep_labels, length_app, length_drop in IH.
    pose proof (overlap_le_headers all row).
    rewrite totalHeaders_cons. simpl. lia.
Qed.

(** Values: the same, for rows whose headers fit their values. *)
Lemma fold_stitch_values rest all :
  Forall headersFit rest →
  length (DemandData.values (fold_left stitchStep rest all))
  + sum_list (boundaryOverlaps all rest)
  = length (DemandData.values all) + totalValues rest.
Proof.
  intros Hfit. revert all.
  induction Hfit as [|row rest Hrow _ IH]; intros all.
  - simpl. unfold totalValues. simpl. lia.
  - specialize (IH (stitchStep all row)).
    rewrite stitchStep_values, length_app, length_drop in IH.
    pose proof (overlap_le_headers all row).
    rewrite totalValues_cons. unfold headersFit in Hrow. simpl. lia.
Qed.

Lemma stitch_cons first rest :
  stitch (first :: rest) = fold_left stitchStep rest (seed first).
Proof. reflexivity. Qed.

Lemma totalValues_le rows :
  Forall headersFit rows → totalHeaders rows ≤ totalValues rows.
Proof.
  induction 1 as [|row rows Hrow _ IH]; [done|].
  rewrite totalHeaders_cons, totalValues_cons. unfold headersFit in Hrow. lia.
Qed.

Lemma totalValues_eq rows :
  Forall headersExact rows → totalHeaders rows = totalValues rows.
Proof.
  induction 1 as [|row rows Hrow _ IH]; [done|].
  rewrite totalHeaders_cons, totalValues_cons. unfold headersExact in Hrow. lia.
Qed.

Lemma headersExact_fit row : headersExact row → headersFit row.
Proof. unfold headersExact, headersFit. lia. Qed.

Lemma stitch_labels_le rows :
  Forall headersFit rows →
  length (DemandData.labels (stitch rows)) ≤ length (DemandData.values (stitch rows)).
Proof.
  destruct rows as [|first rest]; [done|].
  intros Hfit. rewrite stitch_cons.
  pose proof (fold_stitch_labels rest (seed first)) as HL.
  pose proof (fold_stitch_values rest (seed first)
                (Forall_inv_tail Hfit)) as HV.
  pose proof (totalValues_le _ Hfit) as Hle.
  rewrite totalHeaders_cons, totalValues_cons in Hle.
  unfold seed in *. simpl in *. lia.
Qed.

Lemma stitch_labels_eq rows :
  Forall headersExact rows →
  length (DemandData.labels (stitch rows)) = length (DemandData.values (stitch rows)).
Proof.
  destruct rows as [|first rest]; [done|].
  intros Hex. rewrite stitch_cons.
  pose proof (fold_stitch_labels rest (seed first)) as HL.
  assert (Forall headersFit rest) as Hfit.
  { eapply List.Forall_impl; [apply headersExact_fit | exact (Forall_inv_tail Hex)]. }
  pose proof (fold_stitch_values rest (seed first) Hfit) as HV.
  pose proof (totalValues_eq _ Hex) as Heq.
  rewrite totalHeaders_cons, totalValues_cons in Heq.
  unfold seed in *. simpl in *. lia.
Qed.

(** The sort rearranges the rows and loses none. *)
Lemma insertByYear_perm row rows : insertByYear row rows ≡ₚ row :: rows.
Proof.
  induction rows as [|x rows IH]; simpl; [done|].
  destruct (GrossSalesRow.year row <=? GrossSalesRow.year x)%Z; [done|].
  rewrite IH. apply Permutation_swap.
Qed.

Lemma sortByYear_perm rows : sortByYear rows ≡ₚ rows.
Proof.
  induction rows as [|x rows IH]; simpl; [done|].
  rewrite insertByYear_perm. by rewrite IH.
Qed.

Lemma insertByYear_ascending row rows :
  ascendingByYear rows → ascendingByYear (insertByYear row rows).
Proof.
  unfold ascendingByYear.
  induction 1 as [|x rows Hsorted IH Hx]; simpl.
  - repeat constructor.
  - destruct (Z.leb_spec (GrossSalesRow.year row) (GrossSalesRow.year x)) as [Hle|Hgt].
    + constructor; [by constructor|].
      constructor; [done|].
      eapply List.Forall_impl; [|exact Hx]. unfold yearLe in *. intros b ?. lia.
    + constructor; [done|].
      rewrite insertByYear_perm. constructor; [|done]. unfold yearLe. lia.
Qed.

(** The sort puts the rows in ascending order of year. *)
Lemma sortByYear_ascending rows : ascendingByYear (sortByYear rows).
Proof.
  induction rows as [|x rows IH]; simpl; [constructor|].
  by apply insertByYear_ascending.
Qed.

(** Rows that are in ascending order already are left as they are. *)
Lemma sortByYear_sorted rows : ascendingByYear rows → sortByYear rows = rows.
Proof.
  unfold ascendingByYear.
  induction 1 as [|x rows Hsorted IH Hx]; simpl; [done|].
  rewrite IH. destruct Hx as [|y rows Hxy _]; simpl; [done|].
  unfold yearLe in Hxy.
  by destruct (Z.leb_spec (GrossSalesRow.year x) (GrossSalesRow.year y)); [|lia].
Qed.

End StitchFacts.

(** ** Stitching: the claims *)

(** C3. When the last label and the last two labels of the output so far
    both equal the first label and the first two labels of the next row,
    the overlap loop does not stop at 1: it ends on the largest [k] in 1..3
    that matches, and the stitching step drops that many leading labels and
    values of the row. *)
Theorem overlap_keeps_largest_match (allLabels rowLabels : list string) :
  labelsOverlap allLabels rowLabels 1 →
  labelsOverlap allLabels rowLabels 2 →
  let k := computeOverlap allLabels rowLabels in
  2 ≤ k ≤ 3
  ∧ labelsOverlap allLabels rowLabels k
  ∧ (∀ j, 1 ≤ j ≤ 3 → labelsOverlap allLabels rowLabels j → j ≤ k)
  ∧ ∀ allValues year rowValues,
      stitchStep {| DemandData.labels := allLabels; DemandData.values := allValues |}
                 {| GrossSalesRow.year := year; GrossSalesRow.values := rowValues;
                    GrossSalesRow.headers := rowLabels |}
      = {| DemandData.labels := allLabels ++ drop k rowLabels;
           DemandData.values := allValues ++ drop k rowValues |}.
Proof.
  intros _ H2 k.
  assert (2 ≤ k) as Hk by (apply computeOverlap_largest; [lia | done]).
  pose proof (computeOverlap_bound allLabels rowLabels) as Hb.
  unfold overlapBound in Hb.
  split_and!; [done | subst k; lia | | |].
  - apply computeOverlap_matches. subst k. lia.
  - intros j Hj Hov. by apply computeOverlap_largest.
  - intros allValues year rowValues. unfold stitchStep. simpl.
    by rewrite !slice_from.
Qed.

Lemma overlap_keeps_largest_match_witness :
  labelsOverlap ["AUG"; "SEP"; "SEP"] ["SEP"; "SEP"; "NOV"] 1
  ∧ labelsOverlap ["AUG"; "SEP"; "SEP"] ["SEP"; "SEP"; "NOV"] 2
  ∧ 2 ≤ computeOverlap ["AUG"; "SEP"; "SEP"] ["SEP"; "SEP"; "NOV"] ≤ 3.
Proof.
  assert (labelsOverlap ["AUG"; "SEP"; "SEP"] ["SEP"; "SEP"; "NOV"] 1) as H1.
  { unfold labelsOverlap. simpl. split_and!; [lia | lia | reflexivity]. }
  assert (labelsOverlap ["AUG"; "SEP"; "SEP"] ["SEP"; "SEP"; "NOV"] 2) as H2.
  { unfold labelsOverlap. simpl. split_and!; [lia | lia | reflexivity]. }
  split; [exact H1 | split; [exact H2 |]].
  exact (proj1 (overlap_keeps_largest_match _ _ H1 H2)).
Defined.

Example overlap_of_repeating_labels :
  computeOverlap ["AUG"; "SEP"; "SEP"] ["SEP"; "SEP"; "NOV"] = 2.
Proof. reflexivity. Qed.

(** C4. For a non-empty sequence of extracted rows in ascending order of
    year, the stitched values are as many as the values of the rows less
    the overlaps removed at the boundaries; and at a boundary where no [k]
    in 1..3 matches, the overlap is 0 and the row is appended whole.  The
    stitching is a total function: it has no failing case. *)
Theorem stitched_length_and_concatenation
    (rows : list GrossSalesRow.t) (all : DemandData.t) (row : GrossSalesRow.t) :
  (rows ≠ [] → ascendingByYear rows → Forall headersFit rows →
     sortByYear rows = rows
     ∧ sum_list (overlapsRemoved rows) ≤ totalValues rows
     ∧ length (DemandData.values (stitch (sortByYear rows)))
       = totalValues rows - sum_list (overlapsRemoved rows))
  ∧ ((∀ k, 1 ≤ k ≤ 3 →
        ¬ labelsOverlap (DemandData.labels all) (GrossSalesRow.headers row) k) →
     computeOverlap (DemandData.labels all) (GrossSalesRow.headers row) = 0
     ∧ stitchStep all row
       = {| DemandData.labels := DemandData.labels all ++ GrossSalesRow.headers row;
            DemandData.values := DemandData.values all ++ GrossSalesRow.values row |}).
Proof.
  split.
  - intros Hne Hasc Hfit. rewrite (sortByYear_sorted rows Hasc).
    split; [done|]. destruct rows as [|first rest]; [done|].
    rewrite stitch_cons, totalValues_cons. unfold overlapsRemoved.
    pose proof (fold_stitch_values rest (seed first) (Forall_inv_tail Hfit)) as HV.
    unfold seed in *. simpl in *. lia.
  - intros Hno. apply computeOverlap_none in Hno.
    split; [done|]. unfold stitchStep. rewrite Hno. simpl.
    by rewrite !slice_from, !drop_0.
Qed.

Lemma stitched_length_and_concatenation_witness :
  ([row2026; row2027] ≠ []
   ∧ ascendingByYear [row2026; row2027]
   ∧ Forall headersFit [row2026; row2027]
   ∧ length (DemandData.values (stitch (sortByYear [row2026; row2027])))
     = totalValues [row2026; row2027] - sum_list (overlapsRemoved [row2026; row2027]))
  ∧ ((∀ k, 1 ≤ k ≤ 3 →
        ¬ labelsOverlap (DemandData.labels (seed row2026))
                        (GrossSalesRow.headers rowNoOverlap) k)
     ∧ stitchStep (seed row2026) rowNoOverlap
       = {| DemandData.labels := ["AUG"; "SEP"; "OCT"; "NOV"; "DEC"];
            DemandData.values := [215; 237; 500; 389; 307]%Z |}).
Proof.
  assert ([row2026; row2027] ≠ []) as Hne by done.
  assert (ascendingByYear [row2026; row2027]) as Hasc.
  { repeat constructor. unfold yearLe. simpl. lia. }
  assert (Forall headersFit [row2026; row2027]) as Hfit.
  { repeat constructor; unfold headersFit; simpl; lia. }
  assert (∀ k, 1 ≤ k ≤ 3 →
            ¬ labelsOverlap (DemandData.labels (seed row2026))
                            (GrossSalesRow.headers rowNoOverlap) k) as Hno.
  { intros k Hk (H1 & H2 & H3). simpl in *.
    destruct k as [|[|[|k]]]; simpl in *; (lia || discriminate). }
  split.
  - split_and!; [done..|].
    exact (proj2 (proj2 (proj1 (stitched_length_and_concatenation
                                  [row2026; row2027] (seed row2026) rowNoOverlap)
                               Hne Hasc Hfit))).
  - split; [done|].
    exact (proj2 (proj2 (stitched_length_and_concatenation
                           [row2026; row2027] (seed row2026) rowNoOverlap) Hno)).
Defined.



(** Labels that match at no count leave the row whole, and labels that
    match at one count only lose that many: the overlap follows the labels,
    not the bound of the loop. *)
Example overlap_follows_labels :
  computeOverlap ["AUG"; "SEP"; "OCT"] ["NOV"; "DEC"; "JAN"] = 0
  ∧ computeOverlap ["AUG"; "SEP"; "OCT"] ["OCT"; "NOV"; "DEC"] = 1
  ∧ computeOverlap ["AUG"; "SEP"; "OCT"] ["SEP"; "OCT"; "NOV"] = 2.
Proof. repeat split. Qed.

(** The shared month keeps the value gathered first (500), and the value
    the next row holds for it (999) is dropped without a comparison. *)
Example stitch_keeps_first_value :
  stitch [row2026; row2027]
  = {| DemandData.labels := ["AUG"; "SEP"; "OCT"; "NOV"; "DEC"];
       DemandData.values := [215; 237; 500; 389; 307]%Z |}.
Proof. reflexivity. Qed.

(** ** indexOf *)

Section IndexOfFacts.
Implicit Types (l : list string) (x : string) (i k : nat).

Lemma indexOfFrom_absent x k l : x ∉ l → JS.indexOfFrom x k l = (-1)%Z.
Proof.
  revert k. induction l as [|y l IH]; intros k Hx; simpl; [done|].
  apply not_elem_of_cons in Hx as [Hne Hx].
  destruct (String.eqb_spec y x) as [->|_]; [done|]. by apply IH.
Qed.

Lemma indexOfFrom_first x k l i :
  l !! i = Some x → (∀ j, j < i → l !! j ≠ Some x) →
  JS.indexOfFrom x k l = Z.of_nat (k + i).
Proof.
  revert k i. induction l as [|y l IH]; intros k i Hi Hfirst; [done|].
  simpl. destruct (String.eqb_spec y x) as [->|Hne].
  - destruct i as [|i]; [f_equal; lia|].
    exfalso. apply (Hfirst 0); [lia | done].
  - destruct i as [|i]; [simpl in Hi; congruence|].
    rewrite (IH (S k) i); [f_equal; lia | done |].
    intros j Hj. apply (Hfirst (S j)). lia.
Qed.

Lemma indexOf_absent l x : x ∉ l → JS.indexOf l x = (-1)%Z.
Proof. apply indexOfFrom_absent. Qed.

Lemma indexOf_first l x i :
  l !! i = Some x → (∀ j, j < i → l !! j ≠ Some x) →
  JS.indexOf l x = Z.of_nat i.
Proof. intros. unfold JS.indexOf. by rewrite (indexOfFrom_first x 0 l i). Qed.

(** Either the label is absent and the answer is -1, or the answer is
    its lowest index. *)
Lemma indexOf_cases l x :
  ((x ∉ l) ∧ JS.indexOf l x = (-1)%Z)
  ∨ ∃ i, l !! i = Some x ∧ (∀ j, j < i → l !! j ≠ Some x)
         ∧ JS.indexOf l x = Z.of_nat i.
Proof.
  induction l as [|y l IH].
  - left. split; [apply not_elem_of_nil | done].
  - destruct (decide (y = x)) as [->|Hne].
    + right. exists 0. split_and!; [done | intros j ?; lia |].
      by apply indexOf_first; [|intros j ?; lia].
    + destruct IH as [[Hx _]|(i & Hi & Hfirst & _)].
      * left. assert (x ∉ y :: l) as Hx'.
        { apply not_elem_of_cons. split; [congruence | done]. }
        split; [done | by apply indexOf_absent].
      * right. exists (S i).
        assert (∀ j, j < S i → (y :: l) !! j ≠ Some x) as Hfirst'.
        { intros [|j] Hj; simpl; [congruence|]. apply Hfirst. lia. }
        split_and!; [done | done | by apply indexOf_first].
Qed.
End IndexOfFacts.

(** ** The comparison loop *)

Section CompareFacts.
Implicit Types (supplyValues demandSliced demandValues : list Z)
               (labelsSliced demandLabels : list string).

Lemma compareAt_push supplyValues demandSliced labelsSliced acc i :
  compareAt supplyValues demandSliced labelsSliced acc i
  = acc ++ option_list (mismatchOf supplyValues demandSliced labelsSliced i).
Proof.
  unfold compareAt, mismatchOf, mismatchAt.
  destruct (supplyValues !! i) as [s|], (demandSliced !! i) as [d|];
    simpl; rewrite ?app_nil_r; try done.
  destruct (s =? d)%Z; simpl; by rewrite ?app_nil_r.
Qed.

Lemma compare_loop supplyValues demandSliced labelsSliced positions acc :
  fold_left (compareAt supplyValues demandSliced labelsSliced) positions acc
  = acc ++ omap (mismatchOf supplyValues demandSliced labelsSliced) positions.
Proof.
  revert acc. induction positions as [|i positions IH]; intros acc; simpl.
  - by rewrite app_nil_r.
  - rewrite IH, compareAt_push, <- app_assoc. f_equal.
    by destruct (mismatchOf supplyValues demandSliced labelsSliced i).
Qed.

(** With the pivot at index [i], the result is the comparison of the
    supply with the demand from [i] on. *)
Lemma alignAndCompare_at currentMonth supplyValues demandLabels demandValues i :
  JS.indexOf demandLabels currentMonth = Z.of_nat i →
  alignAndCompare currentMonth supplyValues demandLabels demandValues
  = inr (comparison supplyValues (drop i demandValues) (drop i demandLabels)).
Proof.
  intros Hi. unfold alignAndCompare, comparison. rewrite Hi.
  destruct (Z.eqb_spec (Z.of_nat i) (-1)) as [|_]; [lia|].
  by rewrite !slice_from, compare_loop.
Qed.

Lemma mismatchOf_Some supplyValues demandSliced labelsSliced i m :
  mismatchOf supplyValues demandSliced labelsSliced i = Some m
  ↔ ∃ s d, supplyValues !! i = Some s ∧ demandSliced !! i = Some d
           ∧ s ≠ d ∧ m = mismatchAt labelsSliced i s d.
Proof.
  unfold mismatchOf. split.
  - destruct (supplyValues !! i) as [s|], (demandSliced !! i) as [d|];
      try done.
    destruct (Z.eqb_spec s d); [done|]. intros [= <-]. by exists s, d.
  - intros (s & d & -> & -> & Hne & ->).
    by destruct (Z.eqb_spec s d).
Qed.

(** At positions inside both series a record is pushed exactly where the
    two values differ. *)
Lemma mismatch_index_filter supplyValues demandSliced labelsSliced positions :
  Forall (λ i, i < length supplyValues ∧ i < length demandSliced) positions →
  Mismatch.index
    <$> omap (mismatchOf supplyValues demandSliced labelsSliced) positions
  = filter (λ i, supplyValues !! i ≠ demandSliced !! i) positions.
Proof.
  induction 1 as [|i positions [Hs Hd] _ IH]; [done|].
  cbn [omap list_omap]. rewrite filter_cons.
  destruct (lookup_lt_is_Some_2 _ _ Hs) as [s Es].
  destruct (lookup_lt_is_Some_2 _ _ Hd) as [d Ed].
  unfold mismatchOf at 1. rewrite Es, Ed.
  destruct (Z.eqb_spec s d) as [->|Hne].
  - rewrite decide_False by (intros Hne; by apply Hne). exact IH.
  - rewrite decide_True by congruence.
    cbn [fmap list_fmap mismatchAt Mismatch.index]. f_equal. exact IH.
Qed.

Lemma mismatch_indexes supplyValues demandSliced labelsSliced positions :
  (Mismatch.index
     <$> omap (mismatchOf supplyValues demandSliced labelsSliced) positions)
  `sublist_of` positions.
Proof.
  induction positions as [|i positions IH]; simpl; [done|].
  destruct (mismatchOf supplyValues demandSliced labelsSliced i) as [m|] eqn:E.
  - apply mismatchOf_Some in E as (s & d & _ & _ & _ & ->). simpl.
    by apply sublist_skip.
  - by apply sublist_cons.
Qed.
End CompareFacts.

(** ** Alignment: the claims *)

(** C5. When the pivot label occurs in the demand labels, once or several
    times, [alignAndCompare] takes its lowest index [i]: every occurrence is
    at [i] or later, and the result is the comparison of the supply with the
    demand values and labels from [i] on. *)
Theorem pivot_is_first_occurrence
    (currentMonth : string) (supplyValues : list Z)
    (demandLabels : list string) (demandValues : list Z) (i : nat) :
  demandLabels !! i = Some currentMonth →
  (∀ j, j < i → demandLabels !! j ≠ Some currentMonth) →
  JS.indexOf demandLabels currentMonth = Z.of_nat i
  ∧ (∀ later, demandLabels !! later = Some currentMonth → i ≤ later)
  ∧ alignAndCompare currentMonth supplyValues demandLabels demandValues
    = inr (comparison supplyValues (drop i demandValues) (drop i demandLabels)).
Proof.
  intros Hi Hfirst.
  pose proof (indexOf_first _ _ _ Hi Hfirst) as Hidx.
  split_and!; [done | | by apply alignAndCompare_at].
  intros later Hlater.
  destruct (Nat.le_gt_cases i later) as [|Hlt]; [done|].
  by destruct (Hfirst later Hlt).
Qed.

Lemma pivot_is_first_occurrence_witness :
  labelsTwoDecembers !! 2 = Some "DEC"
  ∧ labelsTwoDecembers !! 14 = Some "DEC"
  ∧ (∀ j, j < 2 → labelsTwoDecembers !! j ≠ Some "DEC")
  ∧ alignAndCompare "DEC" [564; 472; 278]%Z labelsTwoDecembers valuesTwoDecembers
    = inr (comparison [564; 472; 278]%Z (drop 2 valuesTwoDecembers)
                      (drop 2 labelsTwoDecembers)).
Proof.
  assert (∀ j, j < 2 → labelsTwoDecembers !! j ≠ Some "DEC") as Hfirst.
  { intros j Hj. destruct j as [|[|j]]; simpl; [discriminate | discriminate | lia]. }
  split_and!; [reflexivity | reflexivity | exact Hfirst |].
  exact (proj2 (proj2 (pivot_is_first_occurrence "DEC" [564; 472; 278]%Z
                         labelsTwoDecembers valuesTwoDecembers 2
                         eq_refl Hfirst))).
Defined.

(** The pivot is the first DEC: the comparison runs against 564, 472, 278
    and not against the 777, 888 of the second DEC. *)
Example align_on_first_december :
  alignAndCompare "DEC" [564; 472; 278]%Z labelsTwoDecembers valuesTwoDecembers
  = inr {| AlignmentResult.mismatches := []; AlignmentResult.comparedCount := 3 |}.
Proof. reflexivity. Qed.

(** C6. When the pivot label is absent from the demand labels,
    [alignAndCompare] throws: it returns no result, and the error names the
    month and the labels.  A test whose demand series lacks the month does
    not pass, whatever the lock status and the supply, and whichever of its
    two reads of the clock gives that month. *)
Theorem pivot_absent_is_an_error
    (currentMonth : string) (supplyValues : list Z)
    (demandLabels : list string) (demandValues : list Z) :
  currentMonth ∉ demandLabels →
  alignAndCompare currentMonth supplyValues demandLabels demandValues
  = inl (pivotNotFound currentMonth demandLabels)
  ∧ ∀ otherMonth locked supplyHeaders,
      (∃ message,
         testBody currentMonth otherMonth locked
           {| SupplyData.values := supplyValues; SupplyData.headers := supplyHeaders |}
           {| DemandData.labels := demandLabels; DemandData.values := demandValues |}
         = Failed message)
      ∧ (∃ message,
           testBody otherMonth currentMonth locked
             {| SupplyData.values := supplyValues; SupplyData.headers := supplyHeaders |}
             {| DemandData.labels := demandLabels; DemandData.values := demandValues |}
           = Failed message).
Proof.
  intros Habs. apply indexOf_absent in Habs.
  assert (alignAndCompare currentMonth supplyValues demandLabels demandValues
          = inl (pivotNotFound currentMonth demandLabels)) as Hthrow.
  { unfold alignAndCompare. by rewrite Habs. }
  split; [exact Hthrow|].
  intros otherMonth locked supplyHeaders. split.
  - unfold testBody, expect. simpl. rewrite Habs.
    destruct (0 <? length supplyValues); [|by eexists].
    destruct (10 <? length demandValues); [|by eexists].
    destruct (length demandLabels =? length demandValues); [|by eexists].
    simpl. by eexists.
  - unfold testBody, expect. simpl. rewrite Hthrow.
    destruct (0 <? length supplyValues); [|by eexists].
    destruct (10 <? length demandValues); [|by eexists].
    destruct (length demandLabels =? length demandValues); [|by eexists].
    destruct (0 <=? JS.indexOf demandLabels otherMonth)%Z; by eexists.
Qed.

Lemma pivot_absent_is_an_error_witness :
  ("FEB" ∉ ["OCT"; "NOV"; "DEC"; "JAN"])
  ∧ alignAndCompare "FEB" [564; 472]%Z ["OCT"; "NOV"; "DEC"; "JAN"]
                    [230; 463; 564; 472]%Z
    = inl "Current month FEB not found in demand labels: [OCT, NOV, DEC, JAN]".
Proof.
  assert ("FEB" ∉ ["OCT"; "NOV"; "DEC"; "JAN"]) as Habs.
  { rewrite !not_elem_of_cons. split_and!; try discriminate. apply not_elem_of_nil. }
  split; [exact Habs|].
  exact (proj1 (pivot_absent_is_an_error "FEB" [564; 472]%Z
                  ["OCT"; "NOV"; "DEC"; "JAN"] [230; 463; 564; 472]%Z Habs)).
Defined.

(** C7. When [alignAndCompare] returns, with [demandSliced] the demand
    values from the pivot on: the positions compared are those below the
    shorter of the two lengths, and [comparedCount] is that length.  The
    indexes of the mismatch records are, in order and each once, the compared
    positions at which the two values differ; and the record of a position
    holds the supply value and the demand value found there, and for its
    month the label found there, or ["Month i"] when the label is missing or
    empty. *)
Theorem compares_up_to_shorter_length
    (currentMonth : string) (supplyValues : list Z)
    (demandLabels : list string) (demandValues : list Z)
    (result : AlignmentResult.t) :
  alignAndCompare currentMonth supplyValues demandLabels demandValues = inr result →
  let startIdx := Z.to_nat (JS.indexOf demandLabels currentMonth) in
  let demandSliced := drop startIdx demandValues in
  let labelsSliced := drop startIdx demandLabels in
  let n := Nat.min (length supplyValues) (length demandSliced) in
  AlignmentResult.comparedCount result = n
  ∧ Mismatch.index <$> AlignmentResult.mismatches result
    = filter (λ i, supplyValues !! i ≠ demandSliced !! i) (seq 0 n)
  ∧ NoDup (Mismatch.index <$> AlignmentResult.mismatches result)
  ∧ (∀ m, m ∈ AlignmentResult.mismatches result →
       Mismatch.index m < n
       ∧ supplyValues !! Mismatch.index m = Some (Mismatch.supply m)
       ∧ demandSliced !! Mismatch.index m = Some (Mismatch.demand m)
       ∧ Mismatch.supply m ≠ Mismatch.demand m
       ∧ match labelsSliced !! Mismatch.index m with
         | Some (String c label) => Mismatch.month m = String c label
         | _ => Mismatch.month m
                = "Month " +:+ JS.natToString (Mismatch.index m)
         end)
  ∧ ∀ i s d, i < n → supplyValues !! i = Some s → demandSliced !! i = Some d →
      s ≠ d →
      ∃ m, m ∈ AlignmentResult.mismatches result
           ∧ Mismatch.index m = i
           ∧ Mismatch.supply m = s ∧ Mismatch.demand m = d.
Proof.
  intros Hres startIdx demandSliced labelsSliced n.
  destruct (indexOf_cases demandLabels currentMonth)
    as [[_ Habs]|(i & _ & _ & Hi)].
  { unfold alignAndCompare in Hres. by rewrite Habs in Hres. }
  rewrite (alignAndCompare_at _ _ _ _ i Hi) in Hres.
  assert (startIdx = i) as Hstart by (subst startIdx; rewrite Hi; lia).
  injection Hres as <-.
  subst n demandSliced labelsSliced. rewrite Hstart. clear Hstart startIdx.
  cbn [comparison AlignmentResult.comparedCount AlignmentResult.mismatches].
  assert (Mismatch.index
            <$> omap (mismatchOf supplyValues (drop i demandValues)
                                 (drop i demandLabels))
                     (seq 0 (Nat.min (length supplyValues)
                                     (length (drop i demandValues))))
          = filter (λ j, supplyValues !! j ≠ drop i demandValues !! j)
                   (seq 0 (Nat.min (length supplyValues)
                                   (length (drop i demandValues))))) as Hidx.
  { apply mismatch_index_filter, Forall_forall.
    intros j Hj%elem_of_seq. lia. }
  split_and!; [done | exact Hidx | | |].
  - rewrite Hidx. apply NoDup_filter, NoDup_seq.
  - intros m (j & Hj & Hm)%list_elem_of_omap. apply elem_of_seq in Hj.
    apply mismatchOf_Some in Hm as (s & d & Hs & Hd & Hne & ->).
    cbn [mismatchAt Mismatch.index Mismatch.supply Mismatch.demand
                    Mismatch.month].
    split_and!; [lia | done | done | done |].
    unfold monthAt.
    by destruct (drop i demandLabels !! j) as [[|c label]|].
  - intros j s d Hj Hs Hd Hne.
    exists (mismatchAt (drop i demandLabels) j s d).
    split; [|done]. apply list_elem_of_omap. exists j.
    split; [apply elem_of_seq; lia|].
    apply mismatchOf_Some. by exists s, d.
Qed.

Lemma compares_up_to_shorter_length_witness :
  alignAndCompare "DEC" [564; 999; 278; 5]%Z ["OCT"; "NOV"; "DEC"; "JAN"; "FEB"]
                  [230; 463; 564; 472; 278]%Z
  = inr {| AlignmentResult.mismatches :=
             [ {| Mismatch.index := 1; Mismatch.month := "JAN";
                  Mismatch.supply := 999; Mismatch.demand := 472 |} ];
           AlignmentResult.comparedCount := 3 |}
  ∧ AlignmentResult.comparedCount
      {| AlignmentResult.mismatches :=
           [ {| Mismatch.index := 1; Mismatch.month := "JAN";
                Mismatch.supply := 999; Mismatch.demand := 472 |} ];
         AlignmentResult.comparedCount := 3 |}
    = Nat.min (length [564; 999; 278; 5]%Z) (length [564; 472; 278]%Z).
Proof.
  assert (alignAndCompare "DEC" [564; 999; 278; 5]%Z
            ["OCT"; "NOV"; "DEC"; "JAN"; "FEB"] [230; 463; 564; 472; 278]%Z
          = inr {| AlignmentResult.mismatches :=
                     [ {| Mismatch.index := 1; Mismatch.month := "JAN";
                          Mismatch.supply := 999; Mismatch.demand := 472 |} ];
                   AlignmentResult.comparedCount := 3 |}) as Hres
    by reflexivity.
  split; [exact Hres|].
  exact (proj1 (compares_up_to_shorter_length _ _ _ _ _ Hres)).
Defined.

(** A label that is missing at a compared position gives the record the
    month ["Month i"]. *)
Example mismatch_without_label :
  alignAndCompare "DEC" [564; 999]%Z ["NOV"; "DEC"] [463; 564; 472]%Z
  = inr {| AlignmentResult.mismatches :=
             [ {| Mismatch.index := 1; Mismatch.month := "Month 1";
                  Mismatch.supply := 999; Mismatch.demand := 472 |} ];
           AlignmentResult.comparedCount := 2 |}.
Proof. reflexivity. Qed.

(** ** Reading a number from a cell *)

Section ParseFacts.
Implicit Types (s t text : string) (c : ascii).

Lemma string_length_append (a b : string) :
  String.length (a +:+ b) = String.length a + String.length b.
Proof. induction a as [|c a IH]; simpl; [done | by rewrite IH]. Qed.

Lemma stripPrefix_append p s r : JS.stripPrefix p s = Some r → s = p +:+ r.
Proof.
  revert s. induction p as [|a p IH]; intros s; cbn [JS.stripPrefix].
  - by intros [= ->].
  - destruct s as [|b s]; [done|].
    destruct (Ascii.eqb_spec a b) as [->|]; [|done].
    intros H. change (String b s = String b (p +:+ r)). f_equal. by apply IH.
Qed.

Lemma stripPrefix_extend p s r w :
  JS.stripPrefix p s = Some r → JS.stripPrefix p (s +:+ w) = Some (r +:+ w).
Proof.
  revert s. induction p as [|a p IH]; intros s; cbn [JS.stripPrefix].
  - by intros [= ->].
  - destruct s as [|b s]; [done|].
    change (String b s +:+ w) with (String b (s +:+ w)). cbn [JS.stripPrefix].
    destruct (Ascii.eqb a b); [apply IH | done].
Qed.

Lemma stripAny_Some ps s r :
  JS.stripAny ps s = Some r → ∃ p, In p ps ∧ JS.stripPrefix p s = Some r.
Proof.
  induction ps as [|p ps IH]; cbn [JS.stripAny]; [done|].
  destruct (JS.stripPrefix p s) as [r'|] eqn:E.
  - intros [= <-]. exists p. split; [by left | done].
  - intros H. destruct (IH H) as (q & Hq & Hs). exists q. split; [by right | done].
Qed.

Lemma stripAny_extend ps s r w :
  JS.stripAny ps s = Some r → is_Some (JS.stripAny ps (s +:+ w)).
Proof.
  induction ps as [|p ps IH]; cbn [JS.stripAny]; [done|].
  destruct (JS.stripPrefix p s) as [r'|] eqn:E.
  - intros _. by rewrite (stripPrefix_extend _ _ _ w E).
  - intros H. destruct (JS.stripPrefix p (s +:+ w)); [done | by apply IH].
Qed.

(** Every white space character starts with one of eleven bytes. *)
Lemma whiteSpace_leads :
  Forall (λ p, ∃ b p', p = String b p' ∧ whiteSpaceLead b = true) JS.whiteSpace.
Proof.
  unfold JS.whiteSpace. cbn [fmap list_fmap JS.bytes fold_right].
  repeat constructor; by eexists _, _.
Qed.

Lemma whiteSpaceLead_cases c :
  whiteSpaceLead c = true →
  In c (ascii_of_nat <$> [9; 10; 11; 12; 13; 32; 194; 225; 226; 227; 239]).
Proof.
  unfold whiteSpaceLead. intros H.
  apply existsb_exists in H as (n & Hin & Heq). apply Nat.eqb_eq in Heq.
  rewrite <- (ascii_nat_embedding c), Heq.
  by apply (in_map ascii_of_nat).
Qed.

Lemma skipWhiteSpace_lead b s r :
  JS.skipWhiteSpace (String b s) = Some r → whiteSpaceLead b = true.
Proof.
  intros H. apply stripAny_Some in H as (p & Hp & Hs).
  pose proof (proj1 (List.Forall_forall _ _) whiteSpace_leads p Hp)
    as (b' & p' & -> & Hlead).
  cbn [JS.stripPrefix] in Hs.
  by destruct (Ascii.eqb_spec b' b) as [<-|].
Qed.

Lemma skipWhiteSpace_shorter s r :
  JS.skipWhiteSpace s = Some r → String.length r < String.length s.
Proof.
  intros H. apply stripAny_Some in H as (p & Hp & Hs).
  pose proof (proj1 (List.Forall_forall _ _) whiteSpace_leads p Hp)
    as (b' & p' & -> & _).
  apply stripPrefix_append in Hs as ->.
  rewrite string_length_append. simpl. lia.
Qed.

Lemma trimStartUpTo_fixed n s :
  JS.skipWhiteSpace s = None → JS.trimStartUpTo n s = s.
Proof. intros H. destruct n; cbn [JS.trimStartUpTo]; by rewrite ?H. Qed.

(** The fuel [trimStart] gives itself is enough: no white space is left at
    the head. *)
Lemma trimStartUpTo_done n s :
  String.length s ≤ n → JS.skipWhiteSpace (JS.trimStartUpTo n s) = None.
Proof.
  revert s. induction n as [|n IH]; intros s Hn.
  - destruct s; [reflexivity | simpl in Hn; lia].
  - cbn [JS.trimStartUpTo].
    destruct (JS.skipWhiteSpace s) as [r|] eqn:E; [|done].
    apply IH. apply skipWhiteSpace_shorter in E. lia.
Qed.

Lemma trimStart_done s : JS.skipWhiteSpace (JS.trimStart s) = None.
Proof. by apply trimStartUpTo_done. Qed.

Lemma trimStart_fixed s : JS.skipWhiteSpace s = None → JS.trimStart s = s.
Proof. apply trimStartUpTo_fixed. Qed.

Lemma trimStart_no_lead c s :
  whiteSpaceLead c = false → JS.trimStart (String c s) = String c s.
Proof.
  intros Hc. apply trimStart_fixed.
  destruct (JS.skipWhiteSpace (String c s)) eqn:E; [|done].
  apply skipWhiteSpace_lead in E. congruence.
Qed.

(** A text of white space only is empty or starts as white space does. *)
Lemma white_cases w :
  JS.trimStart w = EmptyString →
  w = EmptyString ∨ ∃ b w', w = String b w' ∧ whiteSpaceLead b = true.
Proof.
  intros Hw. destruct w as [|b w]; [by left|]. right. exists b, w. split; [done|].
  destruct (JS.skipWhiteSpace (String b w)) eqn:E.
  - by eapply skipWhiteSpace_lead.
  - by rewrite trimStart_fixed in Hw.
Qed.

(** What [trimEnd] cuts off is white space. *)
Lemma trimEnd_split s :
  ∃ w, s = JS.trimEnd s +:+ w ∧ JS.trimStart w = EmptyString.
Proof.
  induction s as [|c s (w & Hs & Hw)]; [by exists EmptyString|].
  cbn [JS.trimEnd].
  destruct (JS.trimStart (String c s)) eqn:E.
  - by exists (String c s).
  - exists w. split; [|done].
    change (String c s = String c (JS.trimEnd s +:+ w)). by f_equal.
Qed.

(** A trimmed text has no white space left for [parseInt] to skip. *)
Lemma trimStart_trim s : JS.trimStart (JS.trim s) = JS.trim s.
Proof.
  unfold JS.trim. pose proof (trimStart_done s) as Hu.
  set (u := JS.trimStart s) in *.
  apply trimStart_fixed.
  destruct (JS.skipWhiteSpace (JS.trimEnd u)) eqn:E; [|done]. exfalso.
  destruct (trimEnd_split u) as (w & Hsplit & _).
  apply (stripAny_extend _ _ _ w) in E. rewrite <- Hsplit in E.
  unfold JS.skipWhiteSpace in Hu. rewrite Hu in E. by destruct E.
Qed.

Lemma digitValue_not_digit c : isDigit c = false → JS.digitValue 10 c = None.
Proof.
  unfold isDigit, JS.digitValue. intros Hc.
  set (n := nat_of_ascii c) in *.
  apply andb_false_iff in Hc. rewrite !Nat.leb_gt in Hc.
  repeat (match goal with
          | |- context [Z.leb ?a ?b] => destruct (Z.leb_spec a b)
          | |- context [Z.ltb ?a ?b] => destruct (Z.ltb_spec a b)
          end; simpl); try done; exfalso; lia.
Qed.

Lemma stripPrefix_zero s t p :
  JS.stripPrefix (String "0" p) s = Some t → startsWithDigit s = true.
Proof.
  intros H. destruct s as [|c s]; [done|].
  cbn [JS.stripPrefix] in H.
  destruct (Ascii.eqb_spec "0" c) as [<-|]; [reflexivity | done].
Qed.

(** With no digit at its head a text has no radix prefix and no number. *)
Lemma read_no_digit s :
  startsWithDigit s = false →
  JS.stripPrefix "0x" s = None ∧ JS.stripPrefix "0X" s = None
  ∧ JS.readDigits 10 None s = None.
Proof.
  intros Hs. split_and!.
  - destruct (JS.stripPrefix "0x" s) eqn:E; [|done].
    apply stripPrefix_zero in E. congruence.
  - destruct (JS.stripPrefix "0X" s) eqn:E; [|done].
    apply stripPrefix_zero in E. congruence.
  - destruct s as [|c s]; simpl in *; [done|].
    by rewrite digitValue_not_digit.
Qed.

Lemma parseInt_no_digit s :
  JS.trimStart s = s → startsWithDigit (unsignedPart s) = false →
  JS.parseInt s = None.
Proof.
  unfold JS.parseInt, unsignedPart. intros -> Hs.
  destruct (JS.stripPrefix "-" s) as [u|], (JS.stripPrefix "+" s) as [v|];
    apply read_no_digit in Hs as (-> & -> & ->); done.
Qed.

Lemma readDigits_Some radix a s : is_Some (JS.readDigits radix (Some a) s).
Proof.
  revert a. induction s as [|c s IH]; intros a; cbn [JS.readDigits]; [done|].
  destruct (JS.digitValue radix c); [apply IH | done].
Qed.

Lemma readDigits_None radix s :
  JS.readDigits radix None s = None
  ↔ match s with
    | String c _ => JS.digitValue radix c = None
    | EmptyString => True
    end.
Proof.
  destruct s as [|c s]; cbn [JS.readDigits]; [done|].
  destruct (JS.digitValue radix c) as [d|]; [|done].
  destruct (readDigits_Some radix (radix * default 0 None + d)%Z s) as [n ->].
  done.
Qed.

Lemma digitValue_decimal c : JS.digitValue 10 c = None ↔ isDigit c = false.
Proof.
  unfold isDigit, JS.digitValue.
  set (n := nat_of_ascii c).
  repeat (match goal with
          | |- context [Z.leb ?a ?b] => destruct (Z.leb_spec a b)
          | |- context [Z.ltb ?a ?b] => destruct (Z.ltb_spec a b)
          | |- context [Nat.leb ?a ?b] => destruct (Nat.leb_spec a b)
          end; cbn [andb orb]); split; intros; try done; exfalso; lia.
Qed.

Lemma digitValue_hexadecimal c :
  JS.digitValue 16 c = None ↔ isHexDigit c = false.
Proof.
  unfold isHexDigit, isDigit, JS.digitValue.
  set (n := nat_of_ascii c).
  repeat (match goal with
          | |- context [Z.leb ?a ?b] => destruct (Z.leb_spec a b)
          | |- context [Z.ltb ?a ?b] => destruct (Z.ltb_spec a b)
          | |- context [Nat.leb ?a ?b] => destruct (Nat.leb_spec a b)
          end; cbn [andb orb]); split; intros; try done; exfalso; lia.
Qed.

Lemma readDigits_decimal_None s :
  JS.readDigits 10 None s = None ↔ startsWithDigit s = false.
Proof.
  rewrite readDigits_None. destruct s as [|c s]; [done|].
  apply digitValue_decimal.
Qed.

Lemma readDigits_hexadecimal_None s :
  JS.readDigits 16 None s = None ↔ startsWithHexDigit s = false.
Proof.
  rewrite readDigits_None. destruct s as [|c s]; [done|].
  apply digitValue_hexadecimal.
Qed.

Lemma option_map_None (sign : Z) (o : option Z) :
  match o with Some n => Some (sign * n)%Z | None => None end = None ↔ o = None.
Proof. by destruct o. Qed.

(** [parseInt] gives no number exactly when, past the white space and the
    sign, the text has no digit of its radix at its head. *)
Lemma parseInt_None_iff s :
  JS.trimStart s = s →
  JS.parseInt s = None ↔ startsWithNumber (unsignedPart s) = false.
Proof.
  unfold JS.parseInt, unsignedPart, startsWithNumber. intros ->.
  destruct (JS.stripPrefix "-" s) as [u|], (JS.stripPrefix "+" s) as [v|];
    cbv beta iota zeta;
    match goal with
    | |- context [JS.stripPrefix "0x" ?t] =>
        destruct (JS.stripPrefix "0x" t), (JS.stripPrefix "0X" t)
    end; cbv beta iota zeta; rewrite option_map_None;
    first [apply readDigits_hexadecimal_None | apply readDigits_decimal_None].
Qed.

(** Digits and nothing else are read as the number they write. *)
Lemma readDigits_allDigits acc s :
  allDigits s = true →
  JS.readDigits 10 (Some acc) s
  = Some (fold_left (λ acc c, 10 * acc + (Z.of_nat (nat_of_ascii c) - 48))%Z
                    (list_ascii_of_string s) acc).
Proof.
  revert acc. induction s as [|c s IH]; intros acc; [done|].
  cbn [allDigits JS.readDigits list_ascii_of_string fold_left].
  intros [Hc Hs]%andb_true_iff.
  assert (JS.digitValue 10 c = Some (Z.of_nat (nat_of_ascii c) - 48)%Z) as ->.
  { revert Hc. unfold isDigit, JS.digitValue.
    intros [H1%Nat.leb_le H2%Nat.leb_le]%andb_true_iff.
    repeat (match goal with
            | |- context [Z.leb ?a ?b] => destruct (Z.leb_spec a b)
            | |- context [Z.ltb ?a ?b] => destruct (Z.ltb_spec a b)
            end; simpl); try done; exfalso; lia. }
  by rewrite IH.
Qed.

Lemma readDigits_numeral s :
  startsWithDigit s = true → allDigits s = true →
  JS.readDigits 10 None s = Some (decimalValue s).
Proof.
  intros Hhead Hall. destruct s as [|c s]; [done|].
  pose proof (readDigits_allDigits 0%Z (String c s) Hall) as H.
  cbn [JS.readDigits] in *.
  change (isDigit c = true) in Hhead.
  destruct (JS.digitValue 10 c) eqn:E; [exact H|].
  apply digitValue_decimal in E. congruence.
Qed.

Lemma allDigits_no_radix_prefix s :
  allDigits s = true →
  JS.stripPrefix "0x" s = None ∧ JS.stripPrefix "0X" s = None.
Proof.
  intros Hall. split.
  - destruct (JS.stripPrefix "0x" s) eqn:E; [|done].
    apply stripPrefix_append in E as ->. done.
  - destruct (JS.stripPrefix "0X" s) eqn:E; [|done].
    apply stripPrefix_append in E as ->. done.
Qed.

Lemma parseInt_numeral s :
  JS.trimStart s = s → isNumeral s = true →
  JS.parseInt s = Some (numeralValue s).
Proof.
  unfold JS.parseInt, isNumeral, numeralValue, unsignedPart.
  intros -> [Hhead Hall]%andb_true_iff. revert Hhead Hall.
  destruct (JS.stripPrefix "-" s) as [u|], (JS.stripPrefix "+" s) as [v|];
    intros Hhead Hall;
    destruct (allDigits_no_radix_prefix _ Hall) as [-> ->];
    rewrite (readDigits_numeral _ Hhead Hall); f_equal; lia.
Qed.

Lemma removeCommas_idemp text :
  JS.removeCommas (JS.removeCommas text) = JS.removeCommas text.
Proof.
  induction text as [|c text IH]; simpl; [done|].
  destruct (Ascii.eqb c ",") eqn:E; [done|]. simpl. by rewrite E, IH.
Qed.
End ParseFacts.

(** C9 as stated fails: "12abc" keeps non-numeric content after the commas
    are removed and the ends trimmed, and yet it is read as 12. *)
Lemma non_numeric_text_is_read :
  isNumeral (stripped "12abc") = false
  ∧ parseSupplyCell "12abc" = Some 12%Z.
Proof. split; reflexivity. Qed.

(** C9, amended.  The supply cell parser removes the commas and trims the
    ends before it parses, so "1,234" and "1234" both give 1234, and commas
    never change the result.  It gives no number exactly when the stripped
    content, past an optional sign, has no number at its head: no decimal
    digit, or the prefix 0x or 0X with no hexadecimal digit behind it; so it
    gives none on the empty text, on "abc" and on "0x".  A numeral, that is
    an optional sign and then decimal digits only, is read as the integer it
    writes, here for numerals of up to fifteen digits, which a number holds
    exactly.  Content that is no numeral can still give a number: "12abc"
    gives 12 and "0x1F" gives 31.  A no-break space at an end is trimmed
    like any other white space. *)
Theorem parse_supply_cell (text : string) :
  parseSupplyCell "1,234" = Some 1234%Z
  ∧ parseSupplyCell "1234" = Some 1234%Z
  ∧ parseSupplyCell " 1,234 " = Some 1234%Z
  ∧ parseSupplyCell (JS.removeCommas text) = parseSupplyCell text
  ∧ parseSupplyCell "" = None
  ∧ parseSupplyCell "abc" = None
  ∧ (startsWithDigit (unsignedPart (stripped text)) = false →
     parseSupplyCell text = None)
  ∧ parseSupplyCell "12abc" = Some 12%Z
  ∧ (parseSupplyCell text = None
     ↔ startsWithNumber (unsignedPart (stripped text)) = false)
  ∧ (isNumeral (stripped text) = true →
     String.length (unsignedPart (stripped text)) ≤ 15 →
     parseSupplyCell text = Some (numeralValue (stripped text)))
  ∧ parseSupplyCell "0x1F" = Some 31%Z
  ∧ parseSupplyCell "0x" = None
  ∧ parseSupplyCell "-0012" = Some (-12)%Z
  ∧ parseSupplyCell (JS.bytes [194; 160] +:+ "1,234" +:+ JS.bytes [194; 160])
    = Some 1234%Z.
Proof.
  split_and!; try reflexivity.
  - unfold parseSupplyCell. by rewrite removeCommas_idemp.
  - intros Hs. unfold parseSupplyCell. apply parseInt_no_digit; [|done].
    apply trimStart_trim.
  - unfold parseSupplyCell. apply parseInt_None_iff, trimStart_trim.
  - intros Hnum _. unfold parseSupplyCell.
    by apply parseInt_numeral; [apply trimStart_trim|].
Qed.

Lemma parse_supply_cell_witness :
  startsWithDigit (unsignedPart (stripped " -,x1 ")) = false
  ∧ parseSupplyCell " -,x1 " = None.
Proof.
  split; [reflexivity|].
  exact (proj1 (proj2 (proj2 (proj2 (proj2 (proj2 (proj2
           (parse_supply_cell " -,x1 "))))))) eq_refl).
Defined.

(** ** The filter on demand cells *)

Section DemandCellFacts.
Implicit Types (cell : Cell) (rest : list Cell) (num : Z).

Lemma keepDemandValue_iff num : keepDemandValue num = true ↔ (0 ≤ num)%Z.
Proof. unfold keepDemandValue. apply Z.leb_le. Qed.

(** The filter of the architecture notes: below ten million and outside
    1900..2100.  Its last disjunct, [num < 1000], adds nothing to
    [num < 1900]. *)
Lemma keepDocumentedValue_iff num :
  keepDocumentedValue num = true
  ↔ (0 ≤ num < 10000000)%Z ∧ ((num < 1900)%Z ∨ (2100 < num)%Z).
Proof.
  unfold keepDocumentedValue.
  rewrite !andb_true_iff, !orb_true_iff, Z.leb_le, !Z.ltb_lt. lia.
Qed.
End DemandCellFacts.

(** The notes' filter on the cells the specification lists, and on the
    2,072 whose loss had the filter removed from the test. *)
Example documented_filter_samples :
  documentedRowValues [td "230"] = [230%Z]
  ∧ documentedRowValues [td "2026"] = []
  ∧ documentedRowValues [td "230"; td "1950"] = [230%Z]
  ∧ documentedRowValues [td "2,072"] = [].
Proof. repeat split. Qed.

(** C2 as stated fails on the test: a cell holding 2026 is kept, it is not
    excluded as a year, although the filter of the notes would drop it; and
    the cells 230 and 1950 leave two values, not one. *)
Lemma year_number_is_kept :
  keepDocumentedValue 2026 = false
  ∧ keepDemandValue 2026 = true
  ∧ demandRowValues [td "2026"] = [2026%Z]
  ∧ demandRowValues [td "230"; td "1950"] = [230%Z; 1950%Z].
Proof. repeat split. Qed.

(** C2, amended.  For a data cell of a Gross sales row whose text parses to
    an integer, the demand extraction keeps the integer exactly when it is
    at least 0: there is no upper bound and no exclusion of year numbers.
    230 is kept, 2026 is kept, and 230 and 1950 side by side are both kept. *)
Theorem demand_cell_kept_iff_nonnegative
    (cell : Cell) (rest : list Cell) (num : Z) :
  JS.includes (JS.trim (textContent cell)) "Gross sales" = false →
  parseDemandCell (valueText cell) = Some num →
  ((0 ≤ num)%Z → demandRowValues (cell :: rest) = num :: demandRowValues rest)
  ∧ ((num < 0)%Z → demandRowValues (cell :: rest) = demandRowValues rest)
  ∧ demandRowValues [td "230"] = [230%Z]
  ∧ demandRowValues [td "2026"] = [2026%Z]
  ∧ demandRowValues [td "230"; td "1950"] = [230%Z; 1950%Z].
Proof.
  intros Hlabel Hparse.
  split_and!; try reflexivity.
  - intros Hnum. cbn [demandRowValues]. rewrite Hlabel, Hparse.
    by rewrite (proj2 (keepDemandValue_iff num) Hnum).
  - intros Hnum. cbn [demandRowValues]. rewrite Hlabel, Hparse.
    destruct (keepDemandValue num) eqn:E; [|done].
    apply keepDemandValue_iff in E. lia.
Qed.

Lemma demand_cell_kept_iff_nonnegative_witness :
  JS.includes (JS.trim (textContent (td "20,000,000"))) "Gross sales" = false
  ∧ parseDemandCell (valueText (td "20,000,000")) = Some 20000000%Z
  ∧ demandRowValues [td "20,000,000"; td "-5"] = 20000000%Z :: demandRowValues [td "-5"].
Proof.
  split_and!; [reflexivity | reflexivity |].
  apply (demand_cell_kept_iff_nonnegative (td "20,000,000") [td "-5"] 20000000%Z);
    [reflexivity | reflexivity | lia].
Defined.

(** ** Labels against values *)

Section LengthFacts.
Lemma supplyFromRows_fit headerLabels rows result :
  supplyFromRows headerLabels rows = Some result →
  SupplyData.headers result
  = take (length (SupplyData.values result)) headerLabels.
Proof.
  induction rows as [|row rows IH]; simpl; [done|].
  destruct (JS.includes (rowText row) "Demand forecast"); [|done].
  intros [= <-]. simpl. apply slice_upto.
Qed.

Lemma extractSupplyValues_fit tables :
  length (SupplyData.headers (extractSupplyValues tables))
  ≤ length (SupplyData.values (extractSupplyValues tables)).
Proof.
  induction tables as [|table tables IH]; simpl; [done|].
  destruct (supplyFromRows _ table) as [result|] eqn:E; [|done].
  rewrite (supplyFromRows_fit _ _ _ E), length_take. lia.
Qed.

(** The headers of a demand row are the header labels cut to the number
    of its values. *)
Lemma grossSalesFromRows_take headerLabels rows :
  Forall (λ row, GrossSalesRow.headers row
                 = take (length (GrossSalesRow.values row)) headerLabels)
         (grossSalesFromRows headerLabels rows).
Proof.
  induction rows as [|row rows IH]; simpl; [done|].
  repeat case_match; try done.
  constructor; [|done]. simpl. apply slice_upto.
Qed.

Lemma grossSalesFromRows_fit headerLabels rows :
  Forall headersFit (grossSalesFromRows headerLabels rows).
Proof.
  eapply List.Forall_impl; [|apply grossSalesFromRows_take].
  intros row Hrow. unfold headersFit. rewrite Hrow, length_take. lia.
Qed.

Lemma grossSalesRows_fit tables : Forall headersFit (grossSalesRows tables).
Proof.
  unfold grossSalesRows. induction tables as [|table tables IH]; [done|].
  rewrite bind_cons. apply Forall_app. split; [|done].
  apply grossSalesFromRows_fit.
Qed.

Lemma sortByYear_Forall (P : GrossSalesRow.t → Prop) rows :
  Forall P rows → Forall P (sortByYear rows).
Proof. intros H. by rewrite sortByYear_perm. Qed.
End LengthFacts.

(** C8 as stated fails: with a header row of six months and data rows of
    seven numeric cells, the supply extract and the stitched demand series
    each hold six labels for seven values. *)
Lemma labels_can_be_fewer_than_values :
  length (SupplyData.headers (extractSupplyValues [[sixMonthHeader; supplyRowWithTotal]]))
  ≠ length (SupplyData.values (extractSupplyValues [[sixMonthHeader; supplyRowWithTotal]]))
  ∧ length (DemandData.labels (extractDemandData [[sixMonthHeader; demandRowWithTotal]]))
    ≠ length (DemandData.values (extractDemandData [[sixMonthHeader; demandRowWithTotal]])).
Proof. split; vm_compute; lia. Qed.

(** C8, amended.  The headers of an extract are the header labels cut to
    the number of values, so every series the pipeline builds (the supply
    extract, each demand row, the stitched series) has at most as many
    labels as values; the stitched series has as many labels as values when
    every demand row has, that is when the header row holds at least as many
    months as each row holds values.  The test body lets through only a
    stitched series whose two lengths are equal: the test passes only with
    equal lengths, and with unequal lengths it fails at the guard on the
    lengths or at one of the two guards before it. *)
Theorem labels_never_exceed_values
    (tables : list Table) (headerLabels : list string) (rows : list Tr) :
  (∀ result, supplyFromRows headerLabels rows = Some result →
     SupplyData.headers result
     = take (length (SupplyData.values result)) headerLabels)
  ∧ Forall (λ row, GrossSalesRow.headers row
                   = take (length (GrossSalesRow.values row)) headerLabels)
           (grossSalesFromRows headerLabels rows)
  ∧ length (SupplyData.headers (extractSupplyValues tables))
    ≤ length (SupplyData.values (extractSupplyValues tables))
  ∧ Forall headersFit (grossSalesRows tables)
  ∧ length (DemandData.labels (extractDemandData tables))
    ≤ length (DemandData.values (extractDemandData tables))
  ∧ (Forall headersExact (grossSalesRows tables) →
     length (DemandData.labels (extractDemandData tables))
     = length (DemandData.values (extractDemandData tables)))
  ∧ (∀ guardMonth alignMonth locked supplyData demandData,
       testBody guardMonth alignMonth locked supplyData demandData = Passed →
       length (DemandData.labels demandData)
       = length (DemandData.values demandData))
  ∧ ∀ guardMonth alignMonth locked supplyData demandData,
      length (DemandData.labels demandData)
      ≠ length (DemandData.values demandData) →
      testBody guardMonth alignMonth locked supplyData demandData
      ∈ [Failed "Supply extraction failed"; Failed "Demand extraction failed";
         Failed "Labels count must match values count"].
Proof.
  split_and!.
  - apply supplyFromRows_fit.
  - apply grossSalesFromRows_take.
  - apply extractSupplyValues_fit.
  - apply grossSalesRows_fit.
  - apply stitch_labels_le, sortByYear_Forall, grossSalesRows_fit.
  - intros Hex. by apply stitch_labels_eq, sortByYear_Forall.
  - intros guardMonth alignMonth locked supplyData demandData.
    unfold testBody, expect.
    destruct (0 <? length (SupplyData.values supplyData)); [|done].
    destruct (10 <? length (DemandData.values demandData)); [|done].
    destruct (Nat.eqb_spec (length (DemandData.labels demandData))
                (length (DemandData.values demandData))); done.
  - intros guardMonth alignMonth locked supplyData demandData Hne.
    unfold testBody, expect.
    destruct (0 <? length (SupplyData.values supplyData));
      [|apply list_elem_of_here].
    destruct (10 <? length (DemandData.values demandData));
      [|apply list_elem_of_further, list_elem_of_here].
    destruct (Nat.eqb_spec (length (DemandData.labels demandData))
                (length (DemandData.values demandData))); [done|].
    do 2 apply list_elem_of_further. apply list_elem_of_here.
Qed.

Lemma labels_never_exceed_values_witness :
  Forall headersExact (grossSalesRows [[sixMonthHeader;
    {| rowText := "Gross sales [2026-2027]564472";
       cells := [td "Gross sales [2026-2027]"; td "564"; td "472"] |}]])
  ∧ length (DemandData.labels (extractDemandData [[sixMonthHeader;
      {| rowText := "Gross sales [2026-2027]564472";
         cells := [td "Gross sales [2026-2027]"; td "564"; td "472"] |}]]))
    = length (DemandData.values (extractDemandData [[sixMonthHeader;
        {| rowText := "Gross sales [2026-2027]564472";
           cells := [td "Gross sales [2026-2027]"; td "564"; td "472"] |}]])).
Proof.
  assert (Forall headersExact (grossSalesRows [[sixMonthHeader;
    {| rowText := "Gross sales [2026-2027]564472";
       cells := [td "Gross sales [2026-2027]"; td "564"; td "472"] |}]])) as Hex.
  { vm_compute. repeat constructor. }
  split; [exact Hex|].
  exact (proj1 (proj2 (proj2 (proj2 (proj2 (proj2
           (labels_never_exceed_values _ [] [])))))) Hex).
Defined.

(** ** The lock classification *)

Lemma lockClassification_Passed locked (mismatches : list Mismatch.t) :
  lockClassification locked mismatches = Passed
  ↔ locked = false ∨ mismatches = [].
Proof.
  destruct locked, mismatches as [|m ms]; simpl; split; intros H;
    try done; try (by left); try (by right).
  by destruct H.
Qed.

(** C1.  A locked forecast with a mismatch fails the test and a locked
    forecast without one passes; an unlocked forecast passes with or without
    mismatches, and with mismatches the outcome is the very outcome of a
    clean run: nothing sets the two apart and nothing is recorded. *)
Theorem unlocked_mismatch_passes_unrecorded
    (m : Mismatch.t) (mismatches : list Mismatch.t) :
  lockClassification true (m :: mismatches)
  = Failed "Locked forecast: Supply and Demand must match"
  ∧ lockClassification true [] = Passed
  ∧ lockClassification false [] = Passed
  ∧ lockClassification false (m :: mismatches) = Passed
  ∧ lockClassification false (m :: mismatches) = lockClassification false [].
Proof. repeat split. Qed.

(** ** The whole demand extraction *)

Lemma totalValues_perm (rows rows' : list GrossSalesRow.t) :
  rows ≡ₚ rows' → totalValues rows = totalValues rows'.
Proof.
  induction 1 as [|x l l' _ IH|x y l|l l' l'' _ IH1 _ IH2];
    rewrite ?totalValues_cons; [done | lia | lia | congruence].
Qed.

(** The stitched values of a page are as many as the values of its Gross
    sales rows less the overlaps removed. *)
Corollary extractDemandData_length (tables : list Table) :
  length (DemandData.values (extractDemandData tables))
  + sum_list (overlapsRemoved (sortByYear (grossSalesRows tables)))
  = totalValues (grossSalesRows tables).
Proof.
  unfold extractDemandData.
  assert (totalValues (sortByYear (grossSalesRows tables))
          = totalValues (grossSalesRows tables)) as <-.
  { apply totalValues_perm, sortByYear_perm. }
  pose proof (sortByYear_Forall headersFit _ (grossSalesRows_fit tables)) as Hfit.
  destruct (sortByYear (grossSalesRows tables)) as [|first rest]; [done|].
  rewrite stitch_cons, totalValues_cons.
  pose proof (fold_stitch_values rest (seed first) (Forall_inv_tail Hfit)) as HV.
  unfold overlapsRemoved, seed in *. simpl in *. lia.
Qed.

(** * Further properties of the test *)

(** ** The two parse sites *)

Section ParseSites.
Implicit Types (s u text : string) (c a b : ascii).

Lemma whiteSpaceLead_no_digit radix c :
  whiteSpaceLead c = true → JS.digitValue radix c = None.
Proof.
  intros H. apply whiteSpaceLead_cases in H.
  cbn [fmap list_fmap In] in H.
  repeat destruct H as [<-|H]; try reflexivity. done.
Qed.

Lemma lead_not_char a c :
  whiteSpaceLead a = false → whiteSpaceLead c = true → Ascii.eqb a c = false.
Proof.
  intros Ha Hc. destruct (Ascii.eqb_spec a c) as [->|]; [congruence | done].
Qed.

(** Trailing white space is past the digits [parseInt] reads. *)
Lemma readDigits_white radix acc x w :
  JS.trimStart w = EmptyString →
  JS.readDigits radix acc (x +:+ w) = JS.readDigits radix acc x.
Proof.
  intros Hw. revert acc. induction x as [|c x IH]; intros acc.
  - change (EmptyString +:+ w) with w.
    destruct (white_cases w Hw) as [->|(b & w' & -> & Hb)]; [done|].
    cbn [JS.readDigits]. by rewrite whiteSpaceLead_no_digit.
  - change (String c x +:+ w) with (String c (x +:+ w)). cbn [JS.readDigits].
    destruct (JS.digitValue radix c); [apply IH | done].
Qed.

Lemma stripPrefix1_white a x w :
  whiteSpaceLead a = false → JS.trimStart w = EmptyString →
  JS.stripPrefix (String a EmptyString) (x +:+ w)
  = (λ rest, rest +:+ w) <$> JS.stripPrefix (String a EmptyString) x.
Proof.
  intros Ha Hw. destruct x as [|c x].
  - change (EmptyString +:+ w) with w.
    destruct (white_cases w Hw) as [->|(b & w' & -> & Hb)]; [done|].
    cbn [JS.stripPrefix]. by rewrite (lead_not_char a b).
  - change (String c x +:+ w) with (String c (x +:+ w)). cbn [JS.stripPrefix].
    by destruct (Ascii.eqb a c).
Qed.

Lemma stripPrefix2_white a b x w :
  whiteSpaceLead a = false → whiteSpaceLead b = false →
  JS.trimStart w = EmptyString →
  JS.stripPrefix (String a (String b EmptyString)) (x +:+ w)
  = (λ rest, rest +:+ w) <$> JS.stripPrefix (String a (String b EmptyString)) x.
Proof.
  intros Ha Hb Hw. destruct x as [|c x].
  - change (EmptyString +:+ w) with w.
    destruct (white_cases w Hw) as [->|(b' & w' & -> & Hb')]; [done|].
    cbn [JS.stripPrefix]. by rewrite (lead_not_char a b').
  - change (String c x +:+ w) with (String c (x +:+ w)). cbn [JS.stripPrefix].
    destruct (Ascii.eqb a c); [by apply stripPrefix1_white | done].
Qed.

Lemma parseInt_trim s : JS.parseInt (JS.trim s) = JS.parseInt s.
Proof.
  unfold JS.parseInt. rewrite trimStart_trim. unfold JS.trim.
  destruct (trimEnd_split (JS.trimStart s)) as (w & Hu & Hw).
  revert Hu. generalize (JS.trimEnd (JS.trimStart s)). intros x ->.
  rewrite !(stripPrefix1_white _ x w) by done.
  destruct (JS.stripPrefix "-" x) as [v|], (JS.stripPrefix "+" x) as [y|];
    cbn [fmap option_fmap option_map];
    rewrite !(stripPrefix2_white _ _ _ w) by done;
    repeat match goal with
           | |- context [JS.stripPrefix ?p ?t] =>
               destruct (JS.stripPrefix p t); cbn [fmap option_fmap option_map]
           end;
    by rewrite readDigits_white.
Qed.
End ParseSites.

(** X1. The supply cells are parsed after a [trim], the demand cells
    without one, and the two read the same number from every text: white
    space at the head is skipped by [parseInt] and white space at the end
    comes after the digits it reads. *)
Theorem parse_sites_agree (text : string) :
  parseSupplyCell text = parseDemandCell text.
Proof. unfold parseSupplyCell, parseDemandCell. apply parseInt_trim. Qed.

(** ** What every extracted series is made of *)

Section SeriesContent.
Implicit Types (all : DemandData.t) (row : GrossSalesRow.t)
               (rows rest : list GrossSalesRow.t) (tables : list Table).

(** The stitching loop only appends: the output so far stays at the head. *)
Lemma fold_stitch_prefix rest all :
  DemandData.labels all `prefix_of` DemandData.labels (fold_left stitchStep rest all)
  ∧ DemandData.values all `prefix_of` DemandData.values (fold_left stitchStep rest all).
Proof.
  revert all. induction rest as [|row rest IH]; intros all; simpl; [done|].
  destruct (IH (stitchStep all row)) as [HL HV]. split.
  - etrans; [|exact HL]. rewrite stitchStep_labels. by apply prefix_app_r.
  - etrans; [|exact HV]. rewrite stitchStep_values. by apply prefix_app_r.
Qed.

(** Every stitched value is a value of a row, every stitched label a header
    of a row. *)
Lemma fold_stitch_values_Forall (P : Z → Prop) rest all :
  Forall P (DemandData.values all) →
  Forall (λ row, Forall P (GrossSalesRow.values row)) rest →
  Forall P (DemandData.values (fold_left stitchStep rest all)).
Proof.
  intros Hall Hrest. revert all Hall.
  induction Hrest as [|row rest Hrow _ IH]; intros all Hall; simpl; [done|].
  apply IH. rewrite stitchStep_values. apply Forall_app. split; [done|].
  by apply Forall_drop.
Qed.

Lemma fold_stitch_labels_Forall (P : string → Prop) rest all :
  Forall P (DemandData.labels all) →
  Forall (λ row, Forall P (GrossSalesRow.headers row)) rest →
  Forall P (DemandData.labels (fold_left stitchStep rest all)).
Proof.
  intros Hall Hrest. revert all Hall.
  induction Hrest as [|row rest Hrow _ IH]; intros all Hall; simpl; [done|].
  apply IH. rewrite stitchStep_labels. apply Forall_app. split; [done|].
  by apply Forall_drop.
Qed.

Lemma stitch_values_Forall (P : Z → Prop) rows :
  Forall (λ row, Forall P (GrossSalesRow.values row)) rows →
  Forall P (DemandData.values (stitch rows)).
Proof.
  destruct rows as [|first rest]; [by constructor|].
  intros Hrows. rewrite stitch_cons.
  apply fold_stitch_values_Forall;
    [exact (Forall_inv Hrows) | exact (Forall_inv_tail Hrows)].
Qed.

Lemma stitch_labels_Forall (P : string → Prop) rows :
  Forall (λ row, Forall P (GrossSalesRow.headers row)) rows →
  Forall P (DemandData.labels (stitch rows)).
Proof.
  destruct rows as [|first rest]; [by constructor|].
  intros Hrows. rewrite stitch_cons.
  apply fold_stitch_labels_Forall;
    [exact (Forall_inv Hrows) | exact (Forall_inv_tail Hrows)].
Qed.

(** What holds of the rows of every table holds of the rows of the page. *)
Lemma grossSalesRows_Forall (P : GrossSalesRow.t → Prop) tables :
  (∀ headerLabels (trs : list Tr), Forall P (grossSalesFromRows headerLabels trs)) →
  Forall P (grossSalesRows tables).
Proof.
  intros HP. unfold grossSalesRows.
  induction tables as [|table tables IH]; [done|].
  rewrite bind_cons. apply Forall_app. split; [apply HP | done].
Qed.

Lemma demandRowValues_nonneg cs : Forall (λ v, (0 ≤ v)%Z) (demandRowValues cs).
Proof.
  induction cs as [|cell cs IH]; simpl; [done|].
  repeat case_match; try done.
  constructor; [|done]. by apply keepDemandValue_iff.
Qed.

Lemma grossSalesFromRows_nonneg headerLabels (rows : list Tr) :
  Forall (λ row, Forall (λ v, (0 ≤ v)%Z) (GrossSalesRow.values row))
         (grossSalesFromRows headerLabels rows).
Proof.
  induction rows as [|row rows IH]; simpl; [done|].
  repeat case_match; try done.
  constructor; [|done]. simpl. apply demandRowValues_nonneg.
Qed.

Lemma monthMatch_month text h : monthMatch text = Some h → isMonthName h = true.
Proof.
  unfold monthMatch. destruct (isMonthName (substring 0 3 text)) eqn:E; [|done].
  by intros [= <-].
Qed.

Lemma supplyPotentialHeaders_months (row : Tr) :
  Forall (λ h, isMonthName h = true) (supplyPotentialHeaders row).
Proof.
  apply Forall_forall. intros h Hh. unfold supplyPotentialHeaders in Hh.
  apply list_elem_of_omap in Hh as (cell & _ & Hm). by eapply monthMatch_month.
Qed.

Lemma demandPotentialHeaders_months (row : Tr) :
  Forall (λ h, isMonthName h = true) (demandPotentialHeaders row).
Proof.
  apply Forall_forall. intros h Hh. unfold demandPotentialHeaders in Hh.
  by apply list_elem_of_filter in Hh as [Hm _].
Qed.

Lemma findHeaderLabels_Forall (P : string → Prop) potentialHeaders (rows : list Tr) :
  (∀ tr : Tr, Forall P (potentialHeaders tr)) →
  Forall P (findHeaderLabels potentialHeaders rows).
Proof.
  intros HP. induction rows as [|tr rows IH]; [done|].
  cbn [findHeaderLabels].
  destruct (6 <=? length (potentialHeaders tr)); [apply HP | exact IH].
Qed.

Lemma extractSupplyValues_headers_Forall (P : string → Prop) tables :
  (∀ tr : Tr, Forall P (supplyPotentialHeaders tr)) →
  Forall P (SupplyData.headers (extractSupplyValues tables)).
Proof.
  intros HP. induction tables as [|table tables IH]; simpl; [done|].
  destruct (supplyFromRows _ table) as [result|] eqn:E; [|done].
  rewrite (supplyFromRows_fit _ _ _ E).
  by apply Forall_take, findHeaderLabels_Forall.
Qed.

Lemma grossSalesRows_headers_Forall (P : string → Prop) tables :
  (∀ tr : Tr, Forall P (demandPotentialHeaders tr)) →
  Forall (λ row, Forall P (GrossSalesRow.headers row)) (grossSalesRows tables).
Proof.
  intros HP. unfold grossSalesRows.
  induction tables as [|table tables IH]; [done|].
  rewrite bind_cons. apply Forall_app. split; [|done].
  eapply List.Forall_impl; [|apply grossSalesFromRows_take].
  intros row ->. by apply Forall_take, findHeaderLabels_Forall.
Qed.
End SeriesContent.

(** X2. No value of the stitched demand series is negative: a cell is
    pushed only when it parses to a number that is at least 0, and the
    stitching only moves the values of the rows. *)
Theorem demand_values_nonnegative (tables : list Table) :
  Forall (λ v, (0 ≤ v)%Z) (DemandData.values (extractDemandData tables)).
Proof.
  apply stitch_values_Forall, sortByYear_Forall, grossSalesRows_Forall.
  apply grossSalesFromRows_nonneg.
Qed.

(** X3. Every header of the supply extract and every label of the stitched
    demand series is one of the twelve month codes JAN..DEC. *)
Theorem labels_are_month_codes (tables : list Table) :
  Forall (λ h, h ∈ monthNames) (SupplyData.headers (extractSupplyValues tables))
  ∧ Forall (λ h, h ∈ monthNames) (DemandData.labels (extractDemandData tables)).
Proof.
  assert (∀ h, isMonthName h = true → h ∈ monthNames) as Hin.
  { intros h Hh. unfold isMonthName in Hh.
    apply existsb_exists in Hh as (m & Hm & Heq).
    apply String.eqb_eq in Heq as ->. by apply list_elem_of_In. }
  split.
  - eapply List.Forall_impl; [exact Hin|].
    apply extractSupplyValues_headers_Forall, supplyPotentialHeaders_months.
  - eapply List.Forall_impl; [exact Hin|].
    apply stitch_labels_Forall, sortByYear_Forall, grossSalesRows_headers_Forall.
    apply demandPotentialHeaders_months.
Qed.

(** X5. The stitched series starts with the first row as it is: its
    headers and its values are the head of the output, whatever rows follow
    and whatever overlaps are found. *)
Theorem stitch_starts_with_first_row
    (first : GrossSalesRow.t) (rest : list GrossSalesRow.t) :
  GrossSalesRow.headers first `prefix_of` DemandData.labels (stitch (first :: rest))
  ∧ GrossSalesRow.values first `prefix_of` DemandData.values (stitch (first :: rest)).
Proof. rewrite stitch_cons. apply (fold_stitch_prefix rest (seed first)). Qed.

(** ** The shape of an extracted row *)

Section RowShape.
Implicit Types (c : ascii) (s y : string).

Lemma isDigit_value c :
  isDigit c = true →
  ∃ d, JS.digitValue 10 c = Some d ∧ (0 ≤ d ≤ 9)%Z.
Proof.
  unfold isDigit, JS.digitValue. set (n := nat_of_ascii c). intros Hc.
  apply andb_true_iff in Hc as [H1 H2].
  apply Nat.leb_le in H1, H2.
  destruct (Z.leb_spec 48 (Z.of_nat n)), (Z.leb_spec (Z.of_nat n) 57);
    simpl; try lia.
  destruct (Z.ltb_spec (Z.of_nat n - 48) 10); [|lia].
  eexists. split; [done | lia].
Qed.

Lemma isDigit_not_char c a : isDigit a = false → isDigit c = true → Ascii.eqb a c = false.
Proof.
  intros Ha Hc. destruct (Ascii.eqb_spec a c) as [->|]; [congruence | done].
Qed.

Lemma isDigit_not_whiteSpace c : isDigit c = true → whiteSpaceLead c = false.
Proof.
  intros Hc. destruct (isDigit_value c Hc) as (d & Hd & _).
  destruct (whiteSpaceLead c) eqn:E; [|done].
  apply (whiteSpaceLead_no_digit 10) in E. congruence.
Qed.

(** Four digits parse to a number below ten thousand. *)
Lemma fourDigits_parse s y rest :
  fourDigits s = Some (y, rest) →
  ∃ n, JS.parseInt y = Some n ∧ (0 ≤ n ≤ 9999)%Z.
Proof.
  unfold fourDigits.
  destruct s as [|a [|b [|c [|d s]]]]; try done.
  destruct (isDigit a) eqn:Ha; [|done].
  destruct (isDigit b) eqn:Hb; [|done].
  destruct (isDigit c) eqn:Hc; [|done].
  destruct (isDigit d) eqn:Hd; [|done].
  simpl. intros [= <- <-].
  destruct (isDigit_value a Ha) as (da & Ea & ?).
  destruct (isDigit_value b Hb) as (db & Eb & ?).
  destruct (isDigit_value c Hc) as (dc & Ec & ?).
  destruct (isDigit_value d Hd) as (dd & Ed & ?).
  unfold JS.parseInt.
  rewrite (trimStart_no_lead a _ (isDigit_not_whiteSpace a Ha)).
  cbn [JS.stripPrefix].
  rewrite (isDigit_not_char a "-" eq_refl Ha), (isDigit_not_char a "+" eq_refl Ha).
  destruct (Ascii.eqb "0" a);
    rewrite ?(isDigit_not_char b "x" eq_refl Hb), ?(isDigit_not_char b "X" eq_refl Hb);
    cbn [JS.readDigits]; rewrite Ea, Eb, Ec, Ed;
    unfold default; cbn [from_option id];
    (eexists; split; [reflexivity | lia]).
Qed.

Lemma yearMatchHere_year s y :
  yearMatchHere s = Some y → ∃ n, JS.parseInt y = Some n ∧ (0 ≤ n ≤ 9999)%Z.
Proof.
  unfold yearMatchHere.
  destruct (JS.stripPrefix "Gross sales" s) as [r1|];
    cbn [mbind option_bind]; [|done].
  destruct (JS.stripPrefix "[" (skipToBracket r1)) as [r2|];
    cbn [mbind option_bind]; [|done].
  destruct (fourDigits r2) as [[y1 r3]|] eqn:E; cbn [mbind option_bind]; [|done].
  destruct (dash r3) as [r4|]; cbn [mbind option_bind]; [|done].
  destruct (fourDigits r4) as [[y2 r5]|]; cbn [mbind option_bind]; [|done].
  destruct (JS.stripPrefix "]" r5) as [r6|]; cbn [mbind option_bind]; [|done].
  intros [= <-]. by eapply fourDigits_parse.
Qed.

Lemma yearMatch_year s y :
  yearMatch s = Some y → ∃ n, JS.parseInt y = Some n ∧ (0 ≤ n ≤ 9999)%Z.
Proof.
  induction s as [|c s IH]; cbn [yearMatch].
  - destruct (yearMatchHere EmptyString) eqn:E; [|done].
    intros [= <-]. by eapply yearMatchHere_year.
  - destruct (yearMatchHere (String c s)) eqn:E; [|exact IH].
    intros [= <-]. by eapply yearMatchHere_year.
Qed.

(** The header labels of a table are none or at least six. *)
Lemma findHeaderLabels_length potentialHeaders (rows : list Tr) :
  findHeaderLabels potentialHeaders rows = []
  ∨ 6 ≤ length (findHeaderLabels potentialHeaders rows).
Proof.
  induction rows as [|tr rows IH]; [by left|].
  cbn [findHeaderLabels].
  destruct (Nat.leb_spec 6 (length (potentialHeaders tr))); [by right | exact IH].
Qed.

Lemma grossSalesFromRows_shape headerLabels (rows : list Tr) :
  (headerLabels = [] ∨ 6 ≤ length headerLabels) →
  Forall (λ row, 1 ≤ length (GrossSalesRow.values row)
                 ∧ Nat.min 6 (length (GrossSalesRow.values row))
                   ≤ length (GrossSalesRow.headers row)
                 ∧ (0 ≤ GrossSalesRow.year row ≤ 9999)%Z)
         (grossSalesFromRows headerLabels rows).
Proof.
  intros Hh. induction rows as [|tr rows IH]; [done|].
  cbn [grossSalesFromRows]. cbv zeta.
  destruct (negb (JS.includes (rowText tr) "Gross sales")); [done|].
  destruct (JS.includes (rowText tr) "(LY)" || JS.includes (rowText tr) "(LLY)");
    [done|].
  destruct (yearMatch (rowText tr)) as [y|] eqn:Ey; [|done].
  destruct (Nat.ltb_spec 0 (length (demandRowValues (tdCells tr))))
    as [Hv|]; [|done].
  destruct (Nat.ltb_spec 0 (length headerLabels)) as [Hl|]; [|done].
  cbn [andb]. constructor; [|done].
  cbn [GrossSalesRow.values GrossSalesRow.headers GrossSalesRow.year].
  destruct (yearMatch_year _ _ Ey) as (n & -> & Hn).
  rewrite slice_upto, length_take.
  destruct Hh as [->|Hh]; [simpl in Hl; lia|].
  split_and!; [lia | lia | exact (proj1 Hn) | exact (proj2 Hn)].
Qed.
End RowShape.

(** X4. Every Gross sales row the extraction keeps has at least one value,
    a year from 0 to 9999, and headers for its first six values at least
    (so a row of up to six values has a header for each value).  The
    stitched demand series is empty exactly when no row was kept. *)
Theorem extracted_rows_shape (tables : list Table) :
  Forall (λ row, 1 ≤ length (GrossSalesRow.values row)
                 ∧ Nat.min 6 (length (GrossSalesRow.values row))
                   ≤ length (GrossSalesRow.headers row)
                 ∧ (0 ≤ GrossSalesRow.year row ≤ 9999)%Z)
         (grossSalesRows tables)
  ∧ (DemandData.values (extractDemandData tables) = [] ↔ grossSalesRows tables = [])
  ∧ (DemandData.labels (extractDemandData tables) = [] ↔ grossSalesRows tables = []).
Proof.
  assert (Forall (λ row, 1 ≤ length (GrossSalesRow.values row)
                 ∧ Nat.min 6 (length (GrossSalesRow.values row))
                   ≤ length (GrossSalesRow.headers row)
                 ∧ (0 ≤ GrossSalesRow.year row ≤ 9999)%Z)
                 (grossSalesRows tables)) as Hshape.
  { unfold grossSalesRows. induction tables as [|table tables IH]; [done|].
    rewrite bind_cons. apply Forall_app. split; [|done].
    apply grossSalesFromRows_shape, findHeaderLabels_length. }
  split; [exact Hshape|].
  unfold extractDemandData.
  pose proof (sortByYear_Forall _ _ Hshape) as Hsorted.
  pose proof (sortByYear_perm (grossSalesRows tables)) as Hperm.
  destruct (sortByYear (grossSalesRows tables)) as [|first rest] eqn:E.
  - apply Permutation_nil in Hperm. by rewrite Hperm.
  - assert (grossSalesRows tables ≠ []) as Hne.
    { intros Hnil. rewrite Hnil in Hperm. by apply Permutation_nil_r in Hperm. }
    destruct (fold_stitch_prefix rest (seed first)) as [HL HV].
    apply Forall_inv in Hsorted as (Hv & Hl & _).
    apply prefix_length in HL, HV. rewrite stitch_cons. simpl in HL, HV.
    split; split; intros H; try done.
    + rewrite H in HV. simpl in HV. lia.
    + rewrite H in HL. simpl in HL. lia.
Qed.

(** ** Overlaps the loop cannot see, and pairs the stitching keeps *)

(** X6. The overlap loop looks no further than three labels.  When the
    rows really share more than three months, all different, no [k] in 1..3
    matches: the overlap found is 0 and the row is appended whole, so the
    shared months come twice in the output. *)
Theorem long_overlap_not_removed
    (all : DemandData.t) (row : GrossSalesRow.t) (m : nat) :
  3 < m →
  labelsOverlap (DemandData.labels all) (GrossSalesRow.headers row) m →
  NoDup (take m (GrossSalesRow.headers row)) →
  computeOverlap (DemandData.labels all) (GrossSalesRow.headers row) = 0
  ∧ stitchStep all row
    = {| DemandData.labels := DemandData.labels all ++ GrossSalesRow.headers row;
         DemandData.values := DemandData.values all ++ GrossSalesRow.values row |}.
Proof.
  intros Hm (Hm1 & Hm2 & Hmeq) Hnodup.
  set (allLabels := DemandData.labels all) in *.
  set (rowLabels := GrossSalesRow.headers row) in *.
  assert (computeOverlap allLabels rowLabels = 0) as Hzero.
  { apply computeOverlap_none. intros k Hk (Hk1 & Hk2 & Hkeq).
    assert (rowLabels !! 0 = rowLabels !! (m - k)) as Hsame.
    { transitivity (allLabels !! (length allLabels - k)).
      - rewrite <- (lookup_take_lt rowLabels k 0) by lia.
        rewrite <- Hkeq, lookup_drop. f_equal. lia.
      - rewrite <- (lookup_take_lt rowLabels m (m - k)) by lia.
        rewrite <- Hmeq, lookup_drop. f_equal. lia. }
    destruct (rowLabels !! 0) as [x|] eqn:E0.
    - assert (0 = m - k); [|lia].
      eapply (NoDup_lookup _ _ _ x Hnodup).
      + rewrite lookup_take_lt by lia. exact E0.
      + rewrite lookup_take_lt by lia. by rewrite <- Hsame.
    - apply lookup_ge_None in E0. lia. }
  split; [exact Hzero|].
  unfold stitchStep. fold allLabels rowLabels. rewrite Hzero. simpl.
  by rewrite !slice_from, !drop_0.
Qed.

Lemma long_overlap_not_removed_witness :
  3 < 4
  ∧ labelsOverlap ["SEP"; "OCT"; "NOV"; "DEC"; "JAN"] ["OCT"; "NOV"; "DEC"; "JAN"; "FEB"] 4
  ∧ NoDup (take 4 ["OCT"; "NOV"; "DEC"; "JAN"; "FEB"])
  ∧ DemandData.labels
      (stitchStep
         {| DemandData.labels := ["SEP"; "OCT"; "NOV"; "DEC"; "JAN"];
            DemandData.values := [1; 2; 3; 4; 5]%Z |}
         {| GrossSalesRow.year := 2027%Z;
            GrossSalesRow.values := [2; 3; 4; 5; 6]%Z;
            GrossSalesRow.headers := ["OCT"; "NOV"; "DEC"; "JAN"; "FEB"] |})
    = ["SEP"; "OCT"; "NOV"; "DEC"; "JAN"; "OCT"; "NOV"; "DEC"; "JAN"; "FEB"].
Proof.
  assert (labelsOverlap ["SEP"; "OCT"; "NOV"; "DEC"; "JAN"]
            ["OCT"; "NOV"; "DEC"; "JAN"; "FEB"] 4) as Hov.
  { unfold labelsOverlap. simpl. split_and!; [lia | lia | reflexivity]. }
  assert (NoDup (take 4 ["OCT"; "NOV"; "DEC"; "JAN"; "FEB"])) as Hnd.
  { simpl. apply NoDup_ListNoDup. repeat constructor; simpl; intuition discriminate. }
  assert (3 < 4) as Hm by lia.
  split_and!; [exact Hm | exact Hov | exact Hnd |].
  exact (f_equal DemandData.labels
           (proj2 (long_overlap_not_removed
                     {| DemandData.labels := ["SEP"; "OCT"; "NOV"; "DEC"; "JAN"];
                        DemandData.values := [1; 2; 3; 4; 5]%Z |}
                     {| GrossSalesRow.year := 2027%Z;
                        GrossSalesRow.values := [2; 3; 4; 5; 6]%Z;
                        GrossSalesRow.headers := ["OCT"; "NOV"; "DEC"; "JAN"; "FEB"] |}
                     4 Hm Hov Hnd))).
Defined.

Section PairFacts.
Implicit Types (all : DemandData.t) (row : GrossSalesRow.t)
               (rows rest : list GrossSalesRow.t).

Lemma fold_stitch_pairs (P : string * Z → Prop) rest all :
  length (DemandData.labels all) = length (DemandData.values all) →
  Forall P (zip (DemandData.labels all) (DemandData.values all)) →
  Forall (λ row, headersExact row
                 ∧ Forall P (zip (GrossSalesRow.headers row)
                                 (GrossSalesRow.values row))) rest →
  Forall P (zip (DemandData.labels (fold_left stitchStep rest all))
                (DemandData.values (fold_left stitchStep rest all))).
Proof.
  intros Hlen Hall Hrest. revert all Hlen Hall.
  induction Hrest as [|row rest [Hex Hrow] _ IH]; intros all Hlen Hall; [done|].
  cbn [fold_left]. unfold headersExact in Hex. apply IH.
  - rewrite stitchStep_labels, stitchStep_values, !length_app, !length_drop. lia.
  - rewrite stitchStep_labels, stitchStep_values.
    rewrite zip_with_app by done. apply Forall_app. split; [done|].
    rewrite <- zip_with_drop. by apply Forall_drop.
Qed.
End PairFacts.

(** X7. When every row has as many headers as values, the stitching keeps
    each value with its own month: every (label, value) pair of the output
    is the (header, value) pair of some row. *)
Theorem stitch_keeps_pairs (rows : list GrossSalesRow.t) :
  Forall headersExact rows →
  Forall (λ pair, ∃ row, row ∈ rows
                         ∧ pair ∈ zip (GrossSalesRow.headers row)
                                      (GrossSalesRow.values row))
         (zip (DemandData.labels (stitch rows)) (DemandData.values (stitch rows))).
Proof.
  intros Hex. destruct rows as [|first rest]; [by constructor|].
  rewrite stitch_cons.
  assert (∀ row, row ∈ first :: rest →
            Forall (λ pair, ∃ row', row' ∈ first :: rest
                              ∧ pair ∈ zip (GrossSalesRow.headers row')
                                           (GrossSalesRow.values row'))
                   (zip (GrossSalesRow.headers row) (GrossSalesRow.values row)))
    as Hown.
  { intros row Hrow. apply Forall_forall. intros pair Hpair. by exists row. }
  apply fold_stitch_pairs.
  - exact (Forall_inv Hex).
  - apply Hown. by left.
  - apply Forall_forall. intros row Hrow. split.
    + by eapply (proj1 (Forall_forall _ _) Hex), list_elem_of_further.
    + apply Hown. by right.
Qed.

Lemma stitch_keeps_pairs_witness :
  Forall headersExact [row2026; row2027]
  ∧ Forall (λ pair, ∃ row, row ∈ [row2026; row2027]
                           ∧ pair ∈ zip (GrossSalesRow.headers row)
                                        (GrossSalesRow.values row))
           (zip (DemandData.labels (stitch [row2026; row2027]))
                (DemandData.values (stitch [row2026; row2027]))).
Proof.
  assert (Forall headersExact [row2026; row2027]) as Hex.
  { repeat constructor. }
  split; [exact Hex|]. exact (stitch_keeps_pairs _ Hex).
Defined.

(** ** What the comparison reports *)

Section ReportFacts.
Implicit Types (supplyValues demandSliced demandValues : list Z)
               (labelsSliced demandLabels : list string).

Lemma omap_nil {A B} (f : A → option B) (l : list A) :
  omap f l = [] ↔ Forall (λ x, f x = None) l.
Proof.
  induction l as [|x l IH]; simpl; [by split|].
  destruct (f x) as [y|] eqn:E.
  - split; [done|]. intros H. apply Forall_inv in H. congruence.
  - rewrite IH. split; [by constructor | apply Forall_inv_tail].
Qed.

Lemma take_eq_lookup {A} (a b : list A) n :
  n ≤ length a → n ≤ length b →
  take n a = take n b ↔ ∀ j, j < n → a !! j = b !! j.
Proof.
  intros Ha Hb. split.
  - intros H j Hj.
    by rewrite <- (lookup_take_lt a n j), <- (lookup_take_lt b n j), H.
  - intros H. apply list_eq. intros j.
    destruct (Nat.lt_ge_cases j n).
    + rewrite !lookup_take_lt by done. by apply H.
    + by rewrite !lookup_take_ge.
Qed.

Lemma mismatchOf_None supplyValues demandSliced labelsSliced j :
  j < length supplyValues → j < length demandSliced →
  mismatchOf supplyValues demandSliced labelsSliced j = None
  ↔ supplyValues !! j = demandSliced !! j.
Proof.
  intros Hs Hd. unfold mismatchOf.
  destruct (lookup_lt_is_Some_2 _ _ Hs) as [s ->].
  destruct (lookup_lt_is_Some_2 _ _ Hd) as [d ->].
  destruct (Z.eqb_spec s d); split; congruence.
Qed.

(** The comparison finds nothing exactly when the two series agree on the
    positions compared. *)
Lemma comparison_clean supplyValues demandSliced labelsSliced :
  let n := Nat.min (length supplyValues) (length demandSliced) in
  AlignmentResult.mismatches (comparison supplyValues demandSliced labelsSliced) = []
  ↔ take n supplyValues = take n demandSliced.
Proof.
  intros n. unfold comparison. fold n. cbn [AlignmentResult.mismatches].
  rewrite omap_nil, Forall_forall, take_eq_lookup by lia.
  split.
  - intros H j Hj. apply (mismatchOf_None _ _ labelsSliced); [lia | lia |].
    apply H, elem_of_seq. lia.
  - intros H j Hj. apply elem_of_seq in Hj.
    apply mismatchOf_None; [lia | lia |]. apply H. lia.
Qed.

Lemma alignAndCompare_found currentMonth supplyValues demandLabels demandValues result :
  alignAndCompare currentMonth supplyValues demandLabels demandValues = inr result →
  ∃ i, demandLabels !! i = Some currentMonth
       ∧ (∀ j, j < i → demandLabels !! j ≠ Some currentMonth)
       ∧ JS.indexOf demandLabels currentMonth = Z.of_nat i
       ∧ result = comparison supplyValues (drop i demandValues) (drop i demandLabels).
Proof.
  intros Hres.
  destruct (indexOf_cases demandLabels currentMonth)
    as [[_ Habs]|(i & Hi & Hfirst & Hidx)].
  { unfold alignAndCompare in Hres. by rewrite Habs in Hres. }
  rewrite (alignAndCompare_at _ _ _ _ i Hidx) in Hres.
  exists i. split_and!; try done. congruence.
Qed.
End ReportFacts.

(** X8. [alignAndCompare] returns an empty mismatch list exactly when the
    supply values and the demand values from the pivot on are the same over
    the [comparedCount] positions compared; values past that count, on
    either side, play no part. *)
Theorem no_mismatch_iff_series_agree
    (currentMonth : string) (supplyValues : list Z)
    (demandLabels : list string) (demandValues : list Z)
    (result : AlignmentResult.t) :
  alignAndCompare currentMonth supplyValues demandLabels demandValues = inr result →
  let startIdx := Z.to_nat (JS.indexOf demandLabels currentMonth) in
  let n := AlignmentResult.comparedCount result in
  AlignmentResult.mismatches result = []
  ↔ take n supplyValues = take n (drop startIdx demandValues).
Proof.
  intros Hres startIdx n.
  destruct (alignAndCompare_found _ _ _ _ _ Hres) as (i & _ & _ & Hidx & ->).
  assert (startIdx = i) as -> by (subst startIdx; rewrite Hidx; lia).
  apply comparison_clean.
Qed.

Lemma no_mismatch_iff_series_agree_witness :
  alignAndCompare "DEC" [564; 472; 278; 1; 2]%Z ["OCT"; "NOV"; "DEC"; "JAN"; "FEB"]
                  [230; 463; 564; 472; 278]%Z
  = inr {| AlignmentResult.mismatches := []; AlignmentResult.comparedCount := 3 |}
  ∧ take 3 [564; 472; 278; 1; 2]%Z = take 3 (drop 2 [230; 463; 564; 472; 278]%Z).
Proof.
  assert (alignAndCompare "DEC" [564; 472; 278; 1; 2]%Z
            ["OCT"; "NOV"; "DEC"; "JAN"; "FEB"] [230; 463; 564; 472; 278]%Z
          = inr {| AlignmentResult.mismatches := [];
                   AlignmentResult.comparedCount := 3 |}) as Hres by reflexivity.
  split; [exact Hres|].
  exact (proj1 (no_mismatch_iff_series_agree _ _ _ _ _ Hres) eq_refl).
Defined.

(** X9. Every mismatch record points back into the series it came from:
    with the pivot at [startIdx], a record of index [k] holds the supply
    value at [k], the demand value at [startIdx + k], and for its month the
    demand label at [startIdx + k], or ["Month k"] when that label is
    missing or empty. *)
Theorem mismatch_points_into_series
    (currentMonth : string) (supplyValues : list Z)
    (demandLabels : list string) (demandValues : list Z)
    (result : AlignmentResult.t) (m : Mismatch.t) :
  alignAndCompare currentMonth supplyValues demandLabels demandValues = inr result →
  m ∈ AlignmentResult.mismatches result →
  let startIdx := Z.to_nat (JS.indexOf demandLabels currentMonth) in
  let k := Mismatch.index m in
  k < AlignmentResult.comparedCount result
  ∧ supplyValues !! k = Some (Mismatch.supply m)
  ∧ demandValues !! (startIdx + k) = Some (Mismatch.demand m)
  ∧ Mismatch.supply m ≠ Mismatch.demand m
  ∧ match demandLabels !! (startIdx + k) with
    | Some (String c label) => Mismatch.month m = String c label
    | _ => Mismatch.month m = "Month " +:+ JS.natToString k
    end.
Proof.
  intros Hres Hm startIdx k.
  destruct (alignAndCompare_found _ _ _ _ _ Hres) as (i & _ & _ & Hidx & ->).
  assert (startIdx = i) as -> by (subst startIdx; rewrite Hidx; lia).
  unfold comparison in Hm. cbn [AlignmentResult.mismatches] in Hm.
  apply list_elem_of_omap in Hm as (j & Hj & Hmj).
  apply elem_of_seq in Hj.
  apply mismatchOf_Some in Hmj as (s & d & Hs & Hd & Hne & ->).
  subst k. cbn [mismatchAt Mismatch.index Mismatch.supply Mismatch.demand
                Mismatch.month AlignmentResult.comparedCount comparison].
  rewrite lookup_drop in Hd.
  split_and!; [lia | done | done | done |].
  unfold monthAt. rewrite lookup_drop.
  by destruct (demandLabels !! (i + j)) as [[|c label]|].
Qed.

Lemma mismatch_points_into_series_witness :
  alignAndCompare "DEC" [564; 999; 278; 5]%Z ["OCT"; "NOV"; "DEC"; "JAN"; "FEB"]
                  [230; 463; 564; 472; 278]%Z
  = inr {| AlignmentResult.mismatches := [mismatchAt ["DEC"; "JAN"; "FEB"] 1 999 472];
           AlignmentResult.comparedCount := 3 |}
  ∧ [230; 463; 564; 472; 278]%Z !! (2 + 1) = Some 472%Z.
Proof.
  assert (alignAndCompare "DEC" [564; 999; 278; 5]%Z
            ["OCT"; "NOV"; "DEC"; "JAN"; "FEB"] [230; 463; 564; 472; 278]%Z
          = inr {| AlignmentResult.mismatches :=
                     [mismatchAt ["DEC"; "JAN"; "FEB"] 1 999 472];
                   AlignmentResult.comparedCount := 3 |}) as Hres
    by reflexivity.
  split; [exact Hres|].
  exact (proj1 (proj2 (proj2 (mismatch_points_into_series _ _ _ _ _
                                (mismatchAt ["DEC"; "JAN"; "FEB"] 1 999 472)
                                Hres (list_elem_of_here _ _))))).
Defined.

(** ** When the test passes and how it fails *)

Section TestBodyFacts.
Implicit Types (supplyData : SupplyData.t) (demandData : DemandData.t).

Lemma append_inv_head (s a b : string) : s +:+ a = s +:+ b → a = b.
Proof. induction s as [|c s IH]; simpl; [done|]. intros [= H]. by apply IH. Qed.

Lemma lastChar_append (x y : string) :
  y ≠ EmptyString → lastChar (x +:+ y) = lastChar y.
Proof.
  intros Hy. induction x as [|c x IH]; [done|].
  change (String c x +:+ y) with (String c (x +:+ y)). cbn [lastChar].
  rewrite <- IH. destruct (x +:+ y) eqn:E; [|done].
  destruct x; [done | discriminate E].
Qed.

(** The message of the guard on the month ends in "found", the text of
    the error of [alignAndCompare] in a bracket. *)
Lemma guard_message_not_thrown guardMonth alignMonth (labels : list string) :
  "Current month " +:+ guardMonth +:+ " not found"
  ≠ pivotNotFound alignMonth labels.
Proof.
  unfold pivotNotFound. intros H%append_inv_head.
  apply (f_equal lastChar) in H.
  rewrite (lastChar_append guardMonth) in H by done.
  rewrite (lastChar_append alignMonth) in H by done.
  rewrite (lastChar_append " not found in demand labels: [") in H
    by (by destruct (JS.join ", " labels)).
  rewrite (lastChar_append (JS.join ", " labels)) in H by done.
  discriminate H.
Qed.

Lemma indexOf_nonneg (labels : list string) month :
  (0 ≤ JS.indexOf labels month)%Z ↔ month ∈ labels.
Proof.
  destruct (indexOf_cases labels month) as [[Hx ->]|(i & Hi & _ & ->)].
  - split; [lia | done].
  - split; [|lia]. intros _. by eapply list_elem_of_lookup_2.
Qed.

(** Past its four guards the test body depends on the comparison alone. *)
Lemma testBody_compared guardMonth alignMonth locked supplyData demandData i :
  0 < length (SupplyData.values supplyData) →
  10 < length (DemandData.values demandData) →
  length (DemandData.labels demandData) = length (DemandData.values demandData) →
  guardMonth ∈ DemandData.labels demandData →
  JS.indexOf (DemandData.labels demandData) alignMonth = Z.of_nat i →
  testBody guardMonth alignMonth locked supplyData demandData
  = let result := comparison (SupplyData.values supplyData)
                             (drop i (DemandData.values demandData))
                             (drop i (DemandData.labels demandData)) in
    expect (12 <=? AlignmentResult.comparedCount result)
           "Must compare at least 12 months"
           (lockClassification locked (AlignmentResult.mismatches result)).
Proof.
  intros Hs Hv Hl Hg%indexOf_nonneg Hi. unfold testBody.
  rewrite (proj2 (Nat.ltb_lt _ _) Hs), (proj2 (Nat.ltb_lt _ _) Hv),
    (proj2 (Nat.eqb_eq _ _) Hl), (proj2 (Z.leb_le _ _) Hg),
    (alignAndCompare_at _ _ _ _ i Hi).
  done.
Qed.

(** The guards of the test body, in the order they are checked. *)
Lemma testBody_guards guardMonth alignMonth locked supplyData demandData :
  (0 < length (SupplyData.values supplyData)
   ∧ 10 < length (DemandData.values demandData)
   ∧ length (DemandData.labels demandData)
     = length (DemandData.values demandData)
   ∧ guardMonth ∈ DemandData.labels demandData)
  ∨ testBody guardMonth alignMonth locked supplyData demandData
    ∈ [Failed "Supply extraction failed"; Failed "Demand extraction failed";
       Failed "Labels count must match values count";
       Failed ("Current month " +:+ guardMonth +:+ " not found")].
Proof.
  unfold testBody, expect.
  destruct (Nat.ltb_spec 0 (length (SupplyData.values supplyData)));
    [|right; apply list_elem_of_here].
  destruct (Nat.ltb_spec 10 (length (DemandData.values demandData)));
    [|right; apply list_elem_of_further, list_elem_of_here].
  destruct (Nat.eqb_spec (length (DemandData.labels demandData))
              (length (DemandData.values demandData)));
    [|right; do 2 apply list_elem_of_further; apply list_elem_of_here].
  destruct (Z.leb_spec 0 (JS.indexOf (DemandData.labels demandData) guardMonth))
    as [Hg|];
    [|right; do 3 apply list_elem_of_further; apply list_elem_of_here].
  left. split_and!; try done. by apply indexOf_nonneg.
Qed.

(** With the guards passed and the month of the second clock read absent,
    the error of [alignAndCompare] is the outcome. *)
Lemma testBody_thrown guardMonth alignMonth locked supplyData demandData :
  0 < length (SupplyData.values supplyData) →
  10 < length (DemandData.values demandData) →
  length (DemandData.labels demandData) = length (DemandData.values demandData) →
  guardMonth ∈ DemandData.labels demandData →
  alignMonth ∉ DemandData.labels demandData →
  testBody guardMonth alignMonth locked supplyData demandData
  = Failed (pivotNotFound alignMonth (DemandData.labels demandData)).
Proof.
  intros Hs Hv Hl Hg%indexOf_nonneg Ha%indexOf_absent. unfold testBody.
  rewrite (proj2 (Nat.ltb_lt _ _) Hs), (proj2 (Nat.ltb_lt _ _) Hv),
    (proj2 (Nat.eqb_eq _ _) Hl), (proj2 (Z.leb_le _ _) Hg).
  unfold alignAndCompare. by rewrite Ha.
Qed.
End TestBodyFacts.

(** X10. The two calls of [getCurrentMonth()] read the clock one after the
    other; with [guardMonth] the month of the call of the guard and
    [alignMonth] the month of the call inside [alignAndCompare], the test
    passes exactly when: the supply has a value, the demand has more than
    ten values and as many labels, [guardMonth] is among the labels,
    [alignMonth] is among the labels and at least twelve positions can be
    compared from its first occurrence, and, for a locked forecast, supply
    and demand agree on all the positions compared. *)
Theorem test_passes_iff
    (guardMonth alignMonth : string) (locked : bool)
    (supplyData : SupplyData.t) (demandData : DemandData.t) :
  let supplyValues := SupplyData.values supplyData in
  let labels := DemandData.labels demandData in
  let values := DemandData.values demandData in
  testBody guardMonth alignMonth locked supplyData demandData = Passed
  ↔ 0 < length supplyValues
    ∧ 10 < length values
    ∧ length labels = length values
    ∧ guardMonth ∈ labels
    ∧ ∃ i, labels !! i = Some alignMonth
           ∧ (∀ j, j < i → labels !! j ≠ Some alignMonth)
           ∧ 12 ≤ Nat.min (length supplyValues) (length (drop i values))
           ∧ (locked = true →
              take (Nat.min (length supplyValues) (length (drop i values))) supplyValues
              = take (Nat.min (length supplyValues) (length (drop i values)))
                     (drop i values)).
Proof.
  intros supplyValues labels values. split.
  - intros Hpass.
    destruct (testBody_guards guardMonth alignMonth locked supplyData demandData)
      as [(Hs & Hv & Hl & Hg)|Hfail].
    2:{ rewrite Hpass in Hfail.
        repeat (apply elem_of_cons in Hfail as [Hfail|Hfail]);
          try discriminate Hfail. by apply elem_of_nil in Hfail. }
    destruct (indexOf_cases labels alignMonth)
      as [[Habs _]|(i & Hi & Hfirst & Hi')].
    { by rewrite (testBody_thrown _ _ _ _ _ Hs Hv Hl Hg Habs) in Hpass. }
    rewrite (testBody_compared _ _ _ _ _ i Hs Hv Hl Hg Hi') in Hpass.
    cbv zeta in Hpass. unfold expect at 1 in Hpass.
    fold supplyValues labels values in Hpass.
    destruct (Nat.leb_spec 12 (AlignmentResult.comparedCount
                (comparison supplyValues (drop i values) (drop i labels))))
      as [H12|]; [|done].
    split_and!; try done. exists i. split_and!; try done.
    intros ->. apply (comparison_clean _ _ (drop i labels)).
    apply lockClassification_Passed in Hpass as [|]; done.
  - intros (Hs & Hv & Hl & Hg & i & Hi & Hfirst & H12 & Hagree).
    rewrite (testBody_compared _ _ _ _ _ i Hs Hv Hl Hg
               (indexOf_first _ _ _ Hi Hfirst)).
    cbv zeta. unfold expect at 1. fold supplyValues labels values.
    cbn [comparison AlignmentResult.comparedCount].
    rewrite (proj2 (Nat.leb_le _ _) H12).
    apply lockClassification_Passed.
    destruct locked; [right | by left].
    by apply (comparison_clean supplyValues (drop i values) (drop i labels)), Hagree.
Qed.

(** Membership in a list written out. *)
Local Ltac in_list :=
  repeat first [apply list_elem_of_here | apply list_elem_of_further].

(** X11. The test fails with one of seven messages and with no other: the
    six of its guards and its classification, and the text of the error
    [alignAndCompare] throws for a missing month.  The error comes through
    only when the two calls of [getCurrentMonth()] return different months,
    the first among the labels and the second not; and whenever the guards
    pass with the second month missing it is the outcome.  With the same
    month from both calls the guard on the labels fails first. *)
Theorem test_failure_messages
    (guardMonth alignMonth : string) (locked : bool)
    (supplyData : SupplyData.t) (demandData : DemandData.t) (message : string) :
  let labels := DemandData.labels demandData in
  (testBody guardMonth alignMonth locked supplyData demandData = Failed message →
   message ∈ ["Supply extraction failed";
              "Demand extraction failed";
              "Labels count must match values count";
              "Current month " +:+ guardMonth +:+ " not found";
              pivotNotFound alignMonth labels;
              "Must compare at least 12 months";
              "Locked forecast: Supply and Demand must match"]
   ∧ (message = pivotNotFound alignMonth labels →
      guardMonth ∈ labels ∧ (alignMonth ∉ labels) ∧ guardMonth ≠ alignMonth)
   ∧ (guardMonth = alignMonth → message ≠ pivotNotFound alignMonth labels))
  ∧ (0 < length (SupplyData.values supplyData) →
     10 < length (DemandData.values demandData) →
     length labels = length (DemandData.values demandData) →
     guardMonth ∈ labels → alignMonth ∉ labels →
     testBody guardMonth alignMonth locked supplyData demandData
     = Failed (pivotNotFound alignMonth labels)).
Proof.
  intros labels. split; [|apply testBody_thrown].
  intros Hfail.
  assert (message ∈ ["Supply extraction failed";
              "Demand extraction failed";
              "Labels count must match values count";
              "Current month " +:+ guardMonth +:+ " not found";
              pivotNotFound alignMonth labels;
              "Must compare at least 12 months";
              "Locked forecast: Supply and Demand must match"]
          ∧ (message = pivotNotFound alignMonth labels →
             guardMonth ∈ labels ∧ alignMonth ∉ labels)) as [Hin Hthrown].
  { destruct (testBody_guards guardMonth alignMonth locked supplyData demandData)
      as [(Hs & Hv & Hl & Hg)|Hguard].
    2:{ rewrite Hfail in Hguard.
        repeat (apply elem_of_cons in Hguard as [Hguard|Hguard]);
          try (injection Hguard as ->;
               split; [in_list | intros Heq; try discriminate Heq;
                                 by apply guard_message_not_thrown in Heq]).
        by apply elem_of_nil in Hguard. }
    destruct (indexOf_cases labels alignMonth)
      as [[Habs _]|(i & Hi & _ & Hi')].
    { rewrite (testBody_thrown _ _ _ _ _ Hs Hv Hl Hg Habs) in Hfail.
      injection Hfail as <-. split; [in_list | done]. }
    rewrite (testBody_compared _ _ _ _ _ i Hs Hv Hl Hg Hi') in Hfail.
    cbv zeta in Hfail. unfold expect at 1 in Hfail.
    destruct (12 <=? _) in Hfail;
      [|injection Hfail as <-; split; [in_list | discriminate]].
    unfold lockClassification, expect in Hfail.
    destruct locked; [|done].
    destruct (_ =? 0) in Hfail; [done|].
    injection Hfail as <-. split; [in_list | discriminate]. }
  split_and!; [exact Hin | |].
  - intros Heq. destruct (Hthrown Heq) as [Hg Ha].
    split_and!; [done | done | congruence].
  - intros -> Heq. by destruct (Hthrown Heq).
Qed.

Lemma test_failure_messages_witness :
  testBody "NOV" "DEC" true
    {| SupplyData.values := [1]%Z; SupplyData.headers := ["DEC"] |}
    {| DemandData.labels := ["JAN"; "FEB"; "MAR"; "APR"; "MAY"; "JUN"; "JUL";
                             "AUG"; "SEP"; "OCT"; "NOV"];
       DemandData.values := [1; 2; 3; 4; 5; 6; 7; 8; 9; 10; 11]%Z |}
  = Failed "Current month DEC not found in demand labels: [JAN, FEB, MAR, APR, MAY, JUN, JUL, AUG, SEP, OCT, NOV]"
  ∧ "NOV" ≠ "DEC".
Proof.
  split; [reflexivity|].
  exact (proj2 (proj2 (proj1 (proj2 (proj1 (test_failure_messages "NOV" "DEC" true
    {| SupplyData.values := [1]%Z; SupplyData.headers := ["DEC"] |}
    {| DemandData.labels := ["JAN"; "FEB"; "MAR"; "APR"; "MAY"; "JUN"; "JUL";
                             "AUG"; "SEP"; "OCT"; "NOV"];
       DemandData.values := [1; 2; 3; 4; 5; 6; 7; 8; 9; 10; 11]%Z |}
    "Current month DEC not found in demand labels: [JAN, FEB, MAR, APR, MAY, JUN, JUL, AUG, SEP, OCT, NOV]")
    eq_refl)) eq_refl))).
Defined.

(** The month turns between the two calls of [getCurrentMonth()]: the
    guard finds NOV among the labels, [alignAndCompare] looks for DEC and
    throws. *)
Example month_turns_between_reads :
  testBody "NOV" "DEC" false
    {| SupplyData.values := [1]%Z; SupplyData.headers := ["DEC"] |}
    {| DemandData.labels := ["JAN"; "FEB"; "MAR"; "APR"; "MAY"; "JUN"; "JUL";
                             "AUG"; "SEP"; "OCT"; "NOV"];
       DemandData.values := [1; 2; 3; 4; 5; 6; 7; 8; 9; 10; 11]%Z |}
  = Failed (pivotNotFound "DEC" ["JAN"; "FEB"; "MAR"; "APR"; "MAY"; "JUN"; "JUL";
                                 "AUG"; "SEP"; "OCT"; "NOV"]).
Proof. reflexivity. Qed.

(** ** Which row and which header row the extraction takes *)

Section SearchFacts.
Implicit Types (table rows pre post : list Tr) (tr : Tr)
               (tables before after : list Table) (headerLabels : list string).

Lemma supplyFromRows_none headerLabels rows :
  Forall (λ tr, JS.includes (rowText tr) "Demand forecast" = false) rows →
  supplyFromRows headerLabels rows = None.
Proof.
  induction 1 as [|tr rows Htr _ IH]; [done|].
  cbn [supplyFromRows]. by rewrite Htr.
Qed.

Lemma supplyFromRows_first headerLabels pre tr post :
  Forall (λ tr, JS.includes (rowText tr) "Demand forecast" = false) pre →
  JS.includes (rowText tr) "Demand forecast" = true →
  supplyFromRows headerLabels (pre ++ tr :: post)
  = Some {| SupplyData.values := supplyRowValues (tdCells tr);
            SupplyData.headers :=
              take (length (supplyRowValues (tdCells tr))) headerLabels |}.
Proof.
  intros Hpre Htr. induction Hpre as [|x pre Hx _ IH].
  - cbn [app supplyFromRows]. rewrite Htr. by rewrite slice_upto.
  - cbn [app supplyFromRows]. by rewrite Hx.
Qed.

Lemma findHeaderLabels_none potentialHeaders rows :
  Forall (λ tr, length (potentialHeaders tr) < 6) rows →
  findHeaderLabels potentialHeaders rows = [].
Proof.
  induction 1 as [|tr rows Htr _ IH]; [done|].
  cbn [findHeaderLabels]. by destruct (Nat.leb_spec 6 (length (potentialHeaders tr))); [lia|].
Qed.

Lemma findHeaderLabels_first potentialHeaders pre tr post :
  Forall (λ tr, length (potentialHeaders tr) < 6) pre →
  6 ≤ length (potentialHeaders tr) →
  findHeaderLabels potentialHeaders (pre ++ tr :: post) = potentialHeaders tr.
Proof.
  intros Hpre Htr. induction Hpre as [|x pre Hx _ IH].
  - cbn [app findHeaderLabels].
    by destruct (Nat.leb_spec 6 (length (potentialHeaders tr))); [|lia].
  - cbn [app findHeaderLabels].
    by destruct (Nat.leb_spec 6 (length (potentialHeaders x))); [lia|].
Qed.

Lemma grossSalesFromRows_no_headers rows : grossSalesFromRows [] rows = [].
Proof.
  induction rows as [|tr rows IH]; [done|].
  cbn [grossSalesFromRows]. cbv zeta. rewrite IH.
  repeat case_match; try done.
  by rewrite andb_false_r in *.
Qed.
End SearchFacts.

(** X12. The supply comes from the first row, in the first table, whose
    text contains "Demand forecast": its numeric [td] cells are the values,
    and the headers are the header labels of that table cut to their count.
    Rows and tables after it are not looked at, also when that row yields
    no value. *)
Theorem supply_is_first_matching_row
    (before after : list Table) (pre post : list Tr) (tr : Tr) :
  Forall (Forall (λ tr, JS.includes (rowText tr) "Demand forecast" = false)) before →
  Forall (λ tr, JS.includes (rowText tr) "Demand forecast" = false) pre →
  JS.includes (rowText tr) "Demand forecast" = true →
  extractSupplyValues (before ++ (pre ++ tr :: post) :: after)
  = {| SupplyData.values := supplyRowValues (tdCells tr);
       SupplyData.headers :=
         take (length (supplyRowValues (tdCells tr)))
              (findHeaderLabels supplyPotentialHeaders (pre ++ tr :: post)) |}.
Proof.
  intros Hbefore Hpre Htr. induction Hbefore as [|table before Htable _ IH].
  - cbn [app extractSupplyValues]. cbv zeta.
    by rewrite (supplyFromRows_first _ pre tr post Hpre Htr).
  - cbn [app extractSupplyValues]. cbv zeta.
    by rewrite (supplyFromRows_none _ table Htable).
Qed.

Lemma supply_is_first_matching_row_witness :
  Forall (Forall (λ tr, JS.includes (rowText tr) "Demand forecast" = false))
         [[sixMonthHeader]]
  ∧ Forall (λ tr, JS.includes (rowText tr) "Demand forecast" = false) [sixMonthHeader]
  ∧ JS.includes (rowText supplyRowWithTotal) "Demand forecast" = true
  ∧ SupplyData.values
      (extractSupplyValues
         ([[sixMonthHeader]]
            ++ ([sixMonthHeader] ++ supplyRowWithTotal :: [supplyRowWithTotal]) :: []))
    = supplyRowValues (tdCells supplyRowWithTotal).
Proof.
  assert (Forall (λ tr, JS.includes (rowText tr) "Demand forecast" = false)
                 [sixMonthHeader]) as Hpre.
  { repeat constructor. }
  assert (Forall (Forall (λ tr, JS.includes (rowText tr) "Demand forecast" = false))
                 [[sixMonthHeader]]) as Hbefore.
  { repeat constructor. }
  split_and!; [exact Hbefore | exact Hpre | reflexivity |].
  exact (f_equal SupplyData.values
           (supply_is_first_matching_row [[sixMonthHeader]] [] [sixMonthHeader]
              [supplyRowWithTotal] supplyRowWithTotal Hbefore Hpre eq_refl)).
Defined.

(** X13. With no row containing "Demand forecast" on the page the supply
    extract is empty, and the test then fails on its first guard, whatever
    the demand series and the lock status are. *)
Theorem supply_missing_fails_test (tables : list Table) :
  Forall (Forall (λ tr, JS.includes (rowText tr) "Demand forecast" = false)) tables →
  extractSupplyValues tables
  = {| SupplyData.values := []; SupplyData.headers := [] |}
  ∧ ∀ guardMonth alignMonth locked demandData,
      testBody guardMonth alignMonth locked (extractSupplyValues tables) demandData
      = Failed "Supply extraction failed".
Proof.
  intros Hnone.
  assert (extractSupplyValues tables
          = {| SupplyData.values := []; SupplyData.headers := [] |}) as Hempty.
  { induction Hnone as [|table tables Htable _ IH]; [done|].
    cbn [extractSupplyValues]. cbv zeta.
    by rewrite (supplyFromRows_none _ table Htable). }
  split; [exact Hempty|]. intros guardMonth alignMonth locked demandData.
  by rewrite Hempty.
Qed.

Lemma supply_missing_fails_test_witness :
  Forall (Forall (λ tr, JS.includes (rowText tr) "Demand forecast" = false))
         [[sixMonthHeader; demandRowWithTotal]]
  ∧ extractSupplyValues [[sixMonthHeader; demandRowWithTotal]]
    = {| SupplyData.values := []; SupplyData.headers := [] |}.
Proof.
  assert (Forall (Forall (λ tr, JS.includes (rowText tr) "Demand forecast" = false))
                 [[sixMonthHeader; demandRowWithTotal]]) as Hnone.
  { repeat constructor. }
  split; [exact Hnone|]. exact (proj1 (supply_missing_fails_test _ Hnone)).
Defined.

(** X16. The header row of a table is its first row with at least six
    month cells.  In a table with no such row the demand extraction keeps
    no Gross sales row at all, whatever values the rows hold, while the
    supply extraction still returns the values of its row, with no
    headers. *)
Theorem table_without_header_row (table : list Tr) (pre post : list Tr) (tr : Tr) :
  (Forall (λ tr, length (demandPotentialHeaders tr) < 6) pre →
   6 ≤ length (demandPotentialHeaders tr) →
   findHeaderLabels demandPotentialHeaders (pre ++ tr :: post)
   = demandPotentialHeaders tr)
  ∧ (Forall (λ tr, length (demandPotentialHeaders tr) < 6) table →
     grossSalesRows [table] = [])
  ∧ (Forall (λ tr, length (supplyPotentialHeaders tr) < 6) (pre ++ tr :: post) →
     Forall (λ tr, JS.includes (rowText tr) "Demand forecast" = false) pre →
     JS.includes (rowText tr) "Demand forecast" = true →
     extractSupplyValues [pre ++ tr :: post]
     = {| SupplyData.values := supplyRowValues (tdCells tr);
          SupplyData.headers := [] |}).
Proof.
  split_and!.
  - apply findHeaderLabels_first.
  - intros Hnone. unfold grossSalesRows. cbn [mbind list_bind app].
    rewrite (findHeaderLabels_none _ table Hnone), grossSalesFromRows_no_headers.
    done.
  - intros Hnone Hpre Htr. cbn [extractSupplyValues]. cbv zeta.
    rewrite (findHeaderLabels_none _ _ Hnone).
    rewrite (supplyFromRows_first _ pre tr post Hpre Htr). by rewrite take_nil.
Qed.

Lemma table_without_header_row_witness :
  Forall (λ tr, length (demandPotentialHeaders tr) < 6) [demandRowWithTotal]
  ∧ grossSalesRows [[demandRowWithTotal]] = []
  ∧ SupplyData.values (extractSupplyValues [[] ++ supplyRowWithTotal :: []])
    = [564; 472; 278; 301; 302; 303; 2020]%Z.
Proof.
  assert (Forall (λ tr, length (demandPotentialHeaders tr) < 6) [demandRowWithTotal])
    as Hnone.
  { constructor; [vm_compute; lia | constructor]. }
  assert (Forall (λ tr, length (supplyPotentialHeaders tr) < 6)
                 ([] ++ supplyRowWithTotal :: [])) as Hnone'.
  { constructor; [vm_compute; lia | constructor]. }
  split_and!; [exact Hnone | |].
  - exact (proj1 (proj2 (table_without_header_row [demandRowWithTotal] []
                           [] demandRowWithTotal)) Hnone).
  - exact (f_equal SupplyData.values
             (proj2 (proj2 (table_without_header_row [] [] [] supplyRowWithTotal))
                Hnone' (List.Forall_nil _) eq_refl)).
Defined.

(** ** The rows handed to the stitcher *)

Section SortFacts.
Implicit Types (row : GrossSalesRow.t) (rows : list GrossSalesRow.t) (y : Z).

Lemma insertByYear_filter y row rows :
  filter (λ r, GrossSalesRow.year r = y) (insertByYear row rows)
  = filter (λ r, GrossSalesRow.year r = y) (row :: rows).
Proof.
  induction rows as [|x rows IH]; [done|].
  cbn [insertByYear].
  destruct (Z.leb_spec (GrossSalesRow.year row) (GrossSalesRow.year x)); [done|].
  rewrite filter_cons, IH, !filter_cons.
  repeat case_decide; try done. lia.
Qed.

Lemma sortByYear_filter y rows :
  filter (λ r, GrossSalesRow.year r = y) (sortByYear rows)
  = filter (λ r, GrossSalesRow.year r = y) rows.
Proof.
  induction rows as [|x rows IH]; [done|].
  cbn [sortByYear foldr]. fold (sortByYear rows).
  by rewrite insertByYear_filter, !filter_cons, IH.
Qed.
End SortFacts.

(** X14. The rows reach the stitcher in ascending order of year, none lost
    and none added, and rows of the same year stay in the order in which the
    page gave them. *)
Theorem rows_sorted_stably (rows : list GrossSalesRow.t) :
  ascendingByYear (sortByYear rows)
  ∧ sortByYear rows ≡ₚ rows
  ∧ ∀ y, filter (λ r, GrossSalesRow.year r = y) (sortByYear rows)
         = filter (λ r, GrossSalesRow.year r = y) rows.
Proof.
  split_and!;
    [apply sortByYear_ascending | apply sortByYear_perm | intros y; apply sortByYear_filter].
Qed.

(** ** The filter of the notes against the filter of the test *)

(** X15. The filter of the architecture notes keeps a number exactly when
    it is in 0..9,999,999 and outside 1900..2100: its clause for small
    values (below 1000) changes nothing.  What it keeps of a row is a
    sub-sequence of what the test keeps: dropping the filter only added
    values, in place. *)
Theorem documented_filter_only_removes (cs : list Cell) (num : Z) :
  (keepDocumentedValue num = true
   ↔ (0 ≤ num < 10000000)%Z ∧ ¬ (1900 ≤ num ≤ 2100)%Z)
  ∧ documentedRowValues cs `sublist_of` demandRowValues cs.
Proof.
  split.
  - rewrite keepDocumentedValue_iff. lia.
  - induction cs as [|cell cs IH]; [done|].
    cbn [documentedRowValues demandRowValues].
    destruct (JS.includes (JS.trim (textContent cell)) "Gross sales"); [done|].
    destruct (parseDemandCell (valueText cell)) as [n|]; [|done].
    destruct (keepDocumentedValue n) eqn:Hdoc.
    + apply keepDocumentedValue_iff in Hdoc as [[Hn _] _].
      rewrite (proj2 (keepDemandValue_iff n) Hn). by apply sublist_skip.
    + destruct (keepDemandValue n); [by apply sublist_cons | done].
Qed.

(** ** The wait for the second year row and the extraction *)

Section WaitFacts.
Implicit Types (s t p r y : string) (rows : list Tr).

Lemma includes_prefix p r : JS.includes (p +:+ r) p = true.
Proof.
  assert (String.prefix p (p +:+ r) = true) as Hp.
  { induction p as [|a p IH]; [by destruct r|].
    change (String.prefix (String a p) (String a (p +:+ r)) = true).
    cbn [String.prefix]. by destruct (ascii_dec a a). }
  destruct p as [|a p]; [by destruct r|].
  change (JS.includes (String a (p +:+ r)) (String a p) = true).
  cbn [JS.includes].
  change (String a (p +:+ r)) with (String a p +:+ r). by rewrite Hp.
Qed.

Lemma includes_cons c s p : JS.includes s p = true → JS.includes (String c s) p = true.
Proof. intros H. cbn [JS.includes]. by destruct (String.prefix p (String c s)). Qed.

Lemma skipToBracket_suffix s : ∃ q, s = q +:+ skipToBracket s.
Proof.
  induction s as [|c s [q IH]]; [by exists EmptyString|].
  cbn [skipToBracket]. destruct (Ascii.eqb c "["); [by exists EmptyString|].
  exists (String c q).
  change (String c s = String c (q +:+ skipToBracket s)). f_equal. exact IH.
Qed.

Lemma bracketYearsTest_here s : bracketYearsHere s = true → bracketYearsTest s = true.
Proof. intros H. destruct s; cbn [bracketYearsTest]; by rewrite H. Qed.

Lemma bracketYearsTest_append q s :
  bracketYearsTest s = true → bracketYearsTest (q +:+ s) = true.
Proof.
  intros H. induction q as [|c q IH]; [done|].
  change (bracketYearsTest (String c (q +:+ s)) = true).
  cbn [bracketYearsTest].
  by destruct (bracketYearsHere (String c (q +:+ s))).
Qed.

Lemma yearMatchHere_counted s y :
  yearMatchHere s = Some y →
  JS.includes s "Gross sales" = true ∧ bracketYearsTest s = true.
Proof.
  unfold yearMatchHere.
  destruct (JS.stripPrefix "Gross sales" s) as [r1|] eqn:E1;
    cbn [mbind option_bind]; [|done].
  intros H. apply stripPrefix_append in E1 as ->.
  split; [apply includes_prefix|].
  apply bracketYearsTest_append.
  destruct (skipToBracket_suffix r1) as [q Hq]. rewrite Hq.
  apply bracketYearsTest_append, bracketYearsTest_here.
  unfold bracketYearsHere. revert H.
  destruct (JS.stripPrefix "[" (skipToBracket r1)) as [r2|];
    cbn [mbind option_bind]; [|done].
  destruct (fourDigits r2) as [[y1 r3]|]; cbn [mbind option_bind]; [|done].
  destruct (dash r3) as [r4|]; cbn [mbind option_bind]; [|done].
  destruct (fourDigits r4) as [[y2 r5]|]; cbn [mbind option_bind]; [|done].
  by destruct (JS.stripPrefix "]" r5).
Qed.

Lemma yearMatch_counted s y :
  yearMatch s = Some y →
  JS.includes s "Gross sales" = true ∧ bracketYearsTest s = true.
Proof.
  induction s as [|c s IH]; cbn [yearMatch].
  - destruct (yearMatchHere EmptyString) eqn:E; [|done].
    intros _. by eapply yearMatchHere_counted.
  - destruct (yearMatchHere (String c s)) eqn:E.
    + intros _. by eapply yearMatchHere_counted.
    + intros H. destruct (IH H) as [Hi Ht]. split.
      * by apply includes_cons.
      * by apply (bracketYearsTest_append (String c EmptyString)).
Qed.
End WaitFacts.

(** X17. Every Gross sales row the extraction keeps is a row the wait
    after the "Show year 2" click counts: the rows kept from a list of rows
    are never more than the rows counted, so rows that give two year rows
    satisfy the wait.  The wait is the weaker test: it also counts rows the
    extraction skips. *)
Theorem kept_rows_are_counted (headerLabels : list string) (rows : list Tr) :
  length (grossSalesFromRows headerLabels rows) ≤ grossSalesCount rows
  ∧ (2 ≤ length (grossSalesFromRows headerLabels rows) →
     secondYearLoaded rows = true).
Proof.
  assert (length (grossSalesFromRows headerLabels rows) ≤ grossSalesCount rows)
    as Hle.
  { unfold grossSalesCount. induction rows as [|tr rows IH]; [done|].
    assert (length (grossSalesFromRows headerLabels (tr :: rows))
            ≤ (if isForecastYearRow tr then 1 else 0)
              + length (grossSalesFromRows headerLabels rows)) as Hstep.
    { cbn [grossSalesFromRows]. cbv zeta. unfold isForecastYearRow.
      destruct (JS.includes (rowText tr) "Gross sales"); cbn [negb andb]; [|lia].
      destruct (JS.includes (rowText tr) "(LY)"); cbn [orb negb andb];
        [rewrite andb_false_r; cbn [andb]; lia|].
      destruct (JS.includes (rowText tr) "(LLY)"); cbn [negb andb];
        [rewrite andb_false_r; lia|].
      destruct (yearMatch (rowText tr)) as [y|] eqn:Ey; [|lia].
      destruct (yearMatch_counted _ _ Ey) as [_ ->]. cbn [andb].
      destruct (_ && _); simpl; lia. }
    rewrite filter_cons.
    destruct (isForecastYearRow tr); [rewrite decide_True by done | rewrite decide_False by done];
      simpl in *; lia. }
  split; [exact Hle|].
  intros H2. unfold secondYearLoaded. apply Nat.leb_le. lia.
Qed.

Lemma kept_rows_are_counted_witness :
  2 ≤ length (grossSalesFromRows ["OCT"] [demandRowWithTotal; demandRowWithTotal])
  ∧ secondYearLoaded [demandRowWithTotal; demandRowWithTotal] = true.
Proof.
  assert (2 ≤ length (grossSalesFromRows ["OCT"]
                        [demandRowWithTotal; demandRowWithTotal])) as H2.
  { vm_compute. lia. }
  split; [exact H2|].
  exact (proj2 (kept_rows_are_counted ["OCT"]
                  [demandRowWithTotal; demandRowWithTotal]) H2).
Defined.

(** A row with a note in brackets before its year range is counted by the
    wait and skipped by the extraction. *)
Example counted_row_not_kept :
  isForecastYearRow rowWithNote = true
  ∧ grossSalesFromRows ["OCT"] [rowWithNote] = [].
Proof. split; reflexivity. Qed.

Lemma test_passes_iff_witness :
  testBody "DEC" "DEC" true
    {| SupplyData.values := [1; 2; 3; 4; 5; 6; 7; 8; 9; 10; 11; 12]%Z;
       SupplyData.headers := [] |}
    {| DemandData.labels := ["NOV"; "DEC"; "JAN"; "FEB"; "MAR"; "APR"; "MAY";
                             "JUN"; "JUL"; "AUG"; "SEP"; "OCT"; "NOV"];
       DemandData.values := [0; 1; 2; 3; 4; 5; 6; 7; 8; 9; 10; 11; 12]%Z |}
  = Passed
  ∧ 10 < length [0; 1; 2; 3; 4; 5; 6; 7; 8; 9; 10; 11; 12]%Z.
Proof.
  split; [reflexivity|].
  exact (proj1 (proj2 (proj1 (test_passes_iff "DEC" "DEC" true
    {| SupplyData.values := [1; 2; 3; 4; 5; 6; 7; 8; 9; 10; 11; 12]%Z;
       SupplyData.headers := [] |}
    {| DemandData.labels := ["NOV"; "DEC"; "JAN"; "FEB"; "MAR"; "APR"; "MAY";
                             "JUN"; "JUL"; "AUG"; "SEP"; "OCT"; "NOV"];
       DemandData.values := [0; 1; 2; 3; 4; 5; 6; 7; 8; 9; 10; 11; 12]%Z |})
    eq_refl))).
Defined.

(** ** The lock status and the failure on mismatches *)

(** X18. The test fails on mismatches only for a forecast found locked:
    the text "Forecast Predictions" was found and the page shows at least
    one lock icon and at least one check icon.  When the text is missing, or
    either icon is, no mismatch fails the test. *)
Theorem mismatch_failure_needs_lock
    (predictionsFound : bool) (lockIconCount checkIconCount : nat)
    (guardMonth alignMonth : string)
    (supplyData : SupplyData.t) (demandData : DemandData.t) :
  testBody guardMonth alignMonth
           (isForecastLocked predictionsFound lockIconCount checkIconCount)
           supplyData demandData
  = Failed "Locked forecast: Supply and Demand must match" →
  predictionsFound = true ∧ 0 < lockIconCount ∧ 0 < checkIconCount.
Proof.
  destruct (isForecastLocked predictionsFound lockIconCount checkIconCount) eqn:E.
  - intros _. unfold isForecastLocked in E.
    destruct predictionsFound; [|done].
    apply andb_true_iff in E as [H1 H2]. by apply Nat.ltb_lt in H1, H2.
  - unfold testBody, expect.
    destruct (0 <? _); [|discriminate].
    destruct (10 <? _); [|discriminate].
    destruct (_ =? _); [|discriminate].
    destruct (0 <=? _)%Z; [|discriminate].
    destruct (alignAndCompare _ _ _ _) as [message|result] eqn:Ealign.
    + unfold alignAndCompare in Ealign.
      destruct (_ =? -1)%Z; [|done]. injection Ealign as <-. discriminate.
    + destruct (12 <=? _); discriminate.
Qed.

Lemma mismatch_failure_needs_lock_witness :
  testBody "DEC" "DEC" (isForecastLocked true 1 2)
    {| SupplyData.values := [1; 2; 3; 4; 5; 6; 7; 8; 9; 10; 11; 99]%Z;
       SupplyData.headers := [] |}
    {| DemandData.labels := ["NOV"; "DEC"; "JAN"; "FEB"; "MAR"; "APR"; "MAY";
                             "JUN"; "JUL"; "AUG"; "SEP"; "OCT"; "NOV"];
       DemandData.values := [0; 1; 2; 3; 4; 5; 6; 7; 8; 9; 10; 11; 12]%Z |}
  = Failed "Locked forecast: Supply and Demand must match"
  ∧ 0 < 1.
Proof.
  split; [reflexivity|].
  exact (proj1 (proj2 (mismatch_failure_needs_lock true 1 2 "DEC" "DEC"
    {| SupplyData.values := [1; 2; 3; 4; 5; 6; 7; 8; 9; 10; 11; 99]%Z;
       SupplyData.headers := [] |}
    {| DemandData.labels := ["NOV"; "DEC"; "JAN"; "FEB"; "MAR"; "APR"; "MAY";
                             "JUN"; "JUL"; "AUG"; "SEP"; "OCT"; "NOV"];
       DemandData.values := [0; 1; 2; 3; 4; 5; 6; 7; 8; 9; 10; 11; 12]%Z |}
    eq_refl))).
Defined.

(** ** The sign of a parsed number *)

Section SignFacts.
Implicit Types (s : string) (c : ascii).

Lemma digitValue_nonneg radix c d : JS.digitValue radix c = Some d → (0 ≤ d)%Z.
Proof.
  unfold JS.digitValue. set (n := Z.of_nat (nat_of_ascii c)).
  repeat (match goal with
          | |- context [Z.leb ?x ?y] => destruct (Z.leb_spec x y)
          | |- context [Z.ltb ?x ?y] => destruct (Z.ltb_spec x y)
          end; cbn [andb]); intros [= <-]; lia.
Qed.

Lemma readDigits_nonneg radix acc s n :
  (0 ≤ radix)%Z → (∀ a, acc = Some a → (0 ≤ a)%Z) →
  JS.readDigits radix acc s = Some n → (0 ≤ n)%Z.
Proof.
  intros Hr. revert acc. induction s as [|c s IH]; intros acc Hacc; simpl.
  - by apply Hacc.
  - destruct (JS.digitValue radix c) as [d|] eqn:E; [|by apply Hacc].
    apply IH. intros a [= <-].
    apply digitValue_nonneg in E.
    destruct acc as [a|]; simpl; [specialize (Hacc a eq_refl)|]; nia.
Qed.
End SignFacts.

(** X19. A number read from a cell is negative only when the text, past
    its leading white space, starts with a minus sign.  So the test
    [num >= 0] of the demand extraction drops no cell but those written with
    a minus sign. *)
Theorem unsigned_text_is_kept (text : string) (num : Z) :
  parseDemandCell text = Some num →
  JS.stripPrefix "-" (JS.trimStart (JS.removeCommas text)) = None →
  keepDemandValue num = true.
Proof.
  unfold parseDemandCell, JS.parseInt. intros Hparse Hminus.
  rewrite Hminus in Hparse. apply keepDemandValue_iff.
  set (u := JS.trimStart (JS.removeCommas text)) in *.
  assert (∀ radix r n, (0 ≤ radix)%Z → JS.readDigits radix None r = Some n →
            (0 ≤ n)%Z) as Hread.
  { intros radix r n Hr. apply readDigits_nonneg; [done | done]. }
  destruct (JS.stripPrefix "+" u) as [v|];
    repeat match type of Hparse with
           | context [JS.stripPrefix ?p ?x] => destruct (JS.stripPrefix p x)
           end;
    match type of Hparse with
    | context [JS.readDigits ?radix None ?r] =>
        destruct (JS.readDigits radix None r) as [n|] eqn:E; [|done];
        injection Hparse as <-;
        apply (Hread radix r n) in E; [lia | lia]
    end.
Qed.

Lemma unsigned_text_is_kept_witness :
  parseDemandCell " 1,234" = Some 1234%Z
  ∧ JS.stripPrefix "-" (JS.trimStart (JS.removeCommas " 1,234")) = None
  ∧ keepDemandValue 1234 = true.
Proof.
  split_and!; [reflexivity | reflexivity |].
  exact (unsigned_text_is_kept " 1,234" 1234%Z eq_refl eq_refl).
Defined.
